(** * disease-dashboard: the data layer of [app.py]

    A shallow embedding of the three fetch functions of [src/app.py]
    ([fetch_states_snapshot], [fetch_national_timeseries],
    [fetch_state_timeseries]) and of the [USPS] table they use, together
    with the properties the specification states about them.

    Conventions of the embedding.
    - A pandas column of nullable numbers is a [list (option Z)]: [None] is
      NaN/null.  A column on which the code computes is a [pd.Series]: the
      values with the type of the column, [int64], [uint64] or
      [float64].  The arithmetic is that of the type: the integer types
      wrap around, [float64] rounds a whole number to 53 significant bits,
      and the cast of a [float64] beyond the range of [int64] gives -2^63.
      Only on counts from 0 to 2^53 is it the arithmetic of the integers,
      and the properties that depend on this say so.
    - A raised Python exception is a value of [exn]; a function that may
      raise returns [result A = exn + A].
    - [requests.get] reads an explicit [Upstream] and appends the URL it
      requests to a log, so that "contacting the upstream" is observable. *)

From Stdlib Require Import ZArith Ascii String.
From stdpp Require Import base option list sorting strings pretty gmap fin_maps.

Local Open Scope string_scope.
Local Open Scope Z_scope.

(** * The program *)

(** ** Region Code Table (app.py, lines 15-24) *)

Module RegionCodes.

(** The items of the dict literal, in source order. *)
Definition USPS_items : list (string * string) :=
  [ ("Alabama","AL"); ("Alaska","AK"); ("Arizona","AZ"); ("Arkansas","AR");
    ("California","CA"); ("Colorado","CO"); ("Connecticut","CT");
    ("Delaware","DE"); ("District of Columbia","DC"); ("Florida","FL");
    ("Georgia","GA"); ("Hawaii","HI"); ("Idaho","ID"); ("Illinois","IL");
    ("Indiana","IN"); ("Iowa","IA"); ("Kansas","KS"); ("Kentucky","KY");
    ("Louisiana","LA"); ("Maine","ME"); ("Maryland","MD");
    ("Massachusetts","MA");
    ("Michigan","MI"); ("Minnesota","MN"); ("Mississippi","MS");
    ("Missouri","MO"); ("Montana","MT"); ("Nebraska","NE"); ("Nevada","NV");
    ("New Hampshire","NH"); ("New Jersey","NJ"); ("New Mexico","NM");
    ("New York","NY"); ("North Carolina","NC"); ("North Dakota","ND");
    ("Ohio","OH"); ("Oklahoma","OK"); ("Oregon","OR"); ("Pennsylvania","PA");
    ("Rhode Island","RI"); ("South Carolina","SC"); ("South Dakota","SD");
    ("Tennessee","TN"); ("Texas","TX"); ("Utah","UT"); ("Vermont","VT");
    ("Virginia","VA"); ("Washington","WA"); ("West Virginia","WV");
    ("Wisconsin","WI");
    ("Wyoming","WY") ].

(** A Python dict literal keeps the last value of a repeated key;
    [list_to_map] keeps the first, hence the [reverse]. *)
Definition USPS : gmap string string := list_to_map (reverse USPS_items).

(** The reverse table, code to name, built the same way. *)
Definition USPS_reverse : gmap string string :=
  list_to_map (reverse ((λ kv, (kv.2, kv.1)) <$> USPS_items)).

End RegionCodes.
Import RegionCodes.

(** ** Exceptions, the upstream source and the request monad *)

Inductive exn :=
| ConnectionError                 (* requests.get: no response within the timeout *)
| HTTPError (status : Z)          (* Response.raise_for_status *)
| JSONDecodeError                 (* Response.json *)
| KeyError (missing : list string)(* selection of columns the frame lacks *)
| ValueError (text : string).     (* pd.to_datetime on text it cannot parse *)

Definition result (A : Type) : Type := exn + A.

(** The objects of the two endpoints, reduced to the fields the code
    reads.  The states endpoint is asked with [allowNull=true], so its
    counts may be null. *)
Module StatesApi.
Record row := { state : string; cases : option Z; deaths : option Z }.
End StatesApi.

(** The NYT endpoints carry a date and a count on every day. *)
Module NytApi.
Record row := { date : string; cases : Z; deaths : Z }.
End NytApi.

(** A decoded JSON body: an array of objects of one of the two shapes.
    The empty array is [States []] or [Series []]; both behave alike. *)
Inductive JSON :=
| States (rows : list StatesApi.row)
| Series (rows : list NytApi.row).

(** [body = None]: the body is not JSON, or not an array of objects, so
    that [pd.DataFrame(r.json())] raises. *)
Record Response := { status_code : Z; body : option JSON }.

(** What a GET on a URL yields; [None] when no response arrives. *)
Definition Upstream : Type := string → option Response.

(** Computations that may raise and that log the URLs they request. *)
Definition M (A : Type) : Type := list string → result A * list string.

Definition raise {A} (e : exn) : M A := λ log, (inl e, log).

#[global] Instance M_ret : MRet M := λ A x log, (inr x, log).

#[global] Instance M_bind : MBind M := λ A B f m log,
  match m log with
  | (inl e, log') => (inl e, log')
  | (inr x, log') => f x log'
  end.

(** [run m] starts from an empty log. *)
Definition run {A} (m : M A) : result A * list string := m [].

Definition requests_get (up : Upstream) (url : string) : M Response :=
  λ log,
    (match up url with
     | None => inl ConnectionError
     | Some r => inr r
     end, (log ++ [url])%list).

(** requests raises [HTTPError] for client errors (400..499) and server
    errors (500..599), and for no other status. *)
Definition raise_for_status (r : Response) : M unit :=
  if bool_decide (400 ≤ status_code r < 600)
  then raise (HTTPError (status_code r))
  else mret ().

Definition json (r : Response) : M JSON :=
  match body r with
  | None => raise JSONDecodeError
  | Some j => mret j
  end.

(** ** Column operations of pandas *)

Module pd.

(** The types of a column of counts.  pandas makes an [int64] column of
    JSON integers in the range of [int64], a [uint64] column of
    non-negative integers below 2^64 of which one is 2^63 or more, and a
    [float64] column once a value is null, the null being NaN.  (A
    column that holds an integer of 2^64 or more, or one below 0 next to
    one of 2^63 or more, keeps Python objects; the model does not cover
    such columns.) *)
Inductive dtype := int64 | uint64 | float64.

(** A column of numbers: its type and its values, [None] for NaN. *)
Record Series := { dtype_of : dtype; values : list (option Z) }.

(** Addition and subtraction on [int64] wrap around, and so does the
    cast of a [uint64] to [int64]. *)
Definition wrap64 (z : Z) : Z := (z + 2 ^ 63) `mod` 2 ^ 64 - 2 ^ 63.

(** The [float64] nearest to a whole number: the number itself below
    2^53 in magnitude, and above it the number rounded to 53 significant
    bits, a tie to the even one.  The whole numbers of the model are far
    below the overflow of [float64], which is not modelled. *)
Definition f64 (z : Z) : Z :=
  let a := Z.abs z in
  if bool_decide (a < 2 ^ 53) then z
  else
    let e := Z.log2 a - 52 in
    let q := a `div` 2 ^ e in
    let r := a `mod` 2 ^ e in
    let half := 2 ^ (e - 1) in
    let q' := if bool_decide (r < half) then q
              else if bool_decide (half < r) then q + 1
              else if Z.even q then q else q + 1 in
    Z.sgn z * (q' * 2 ^ e).

(** The cast of a whole [float64] to [int64]: the number itself in the
    range of [int64], and -2^63 out of that range (the result of the
    conversion on x86-64). *)
Definition to_int64 (z : Z) : Z :=
  if bool_decide (- 2 ^ 63 ≤ z < 2 ^ 63) then z else - 2 ^ 63.

(** A value that fits [int64]. *)
Definition fits_int64 (x : option Z) : Prop :=
  match x with
  | Some z => - 2 ^ 63 ≤ z < 2 ^ 63
  | None => True
  end.

#[global] Instance fits_int64_dec x : Decision (fits_int64 x).
Proof. destruct x; simpl; apply _. Defined.

(** The column pandas makes of the numbers and nulls of a JSON array. *)
Definition series (s : list (option Z)) : Series :=
  {| dtype_of := if bool_decide (None ∈ s) then float64
                 else if bool_decide (Forall fits_int64 s) then int64
                 else uint64;
     values := s |}.

(** The column a merge makes of the values it takes from the column
    [s]: of the type of [s], and [float64] once a row has no value. *)
Definition reindex (s : Series) (taken : list (option Z)) : Series :=
  {| dtype_of := if bool_decide (None ∈ taken) then float64 else dtype_of s;
     values := taken |}.

(** The type of [a - b]: that of the two columns when they have the
    same integer type, else [float64]. *)
Definition result_type (a b : dtype) : dtype :=
  match a, b with
  | int64, int64 => int64
  | uint64, uint64 => uint64
  | _, _ => float64
  end.

(** One subtraction in a column of type [dt]: NaN where either operand
    is NaN; the integer types wrap around; in [float64] both operands
    are [float64] numbers, and so is their difference. *)
Definition sub_cell (dt : dtype) (x y : option Z) : option Z :=
  match x, y with
  | Some u, Some v =>
      Some (match dt with
            | int64 => wrap64 (u - v)
            | uint64 => (u - v) `mod` 2 ^ 64
            | float64 => f64 (f64 u - f64 v)
            end)
  | _, _ => None
  end.

(** [a - b] on two aligned columns. *)
Definition sub (a b : Series) : Series :=
  let dt := result_type (dtype_of a) (dtype_of b) in
  {| dtype_of := dt; values := zip_with (sub_cell dt) (values a) (values b) |}.

(** [s.diff()]: NaN first, then each value minus the one before it.  The
    result is [float64] whatever the type of [s], and the subtraction is
    that of [float64]. *)
Definition diff (s : Series) : Series :=
  {| dtype_of := float64;
     values := match values s with
               | [] => []
               | _ :: tl => None :: zip_with (sub_cell float64) tl (values s)
               end |}.

(** [s.fillna(v)]: the numbers of the column, which has no NaN left and
    keeps its type. *)
Definition fillna (v : Z) (s : Series) : list Z :=
  default v <$> values s.

(** The cast of a whole number of a column of type [from] to [int64]. *)
Definition cast (from : dtype) (z : Z) : Z :=
  match from with
  | int64 => z
  | uint64 => wrap64 z
  | float64 => to_int64 z
  end.

(** [s.astype("int64")] and [s.astype(int)] on the numbers of a column
    of type [from] without NaN. *)
Definition astype_int (from : dtype) (s : list Z) : list Z :=
  cast from <$> s.

Definition clip (lower : Z) (s : list Z) : list Z :=
  Z.max lower <$> s.

(** [s.map(d)] with a dict: NaN for a key the dict lacks. *)
Definition map (d : gmap string string) (s : list string)
  : list (option string) := (λ k, d !! k) <$> s.

Definition notna {A} (s : list (option A)) : list bool :=
  (λ x, bool_decide (is_Some x)) <$> s.

(** [df[mask]]: the rows whose mask entry is true. *)
Fixpoint mask {A} (df : list A) (m : list bool) : list A :=
  match df, m with
  | r :: df', b :: m' => if b then r :: mask df' m' else mask df' m'
  | _, _ => []
  end.

End pd.

(** ** Snapshot fetcher (app.py, lines 26-61) *)

Module Snapshot.

(** A row of [today.merge(yest, on="state", how="left")], after the two
    renamings of [cases] and [deaths].  The four count columns carry the
    numbers as the source sent them; what a [float64] column makes of a
    number above 2^53 shows where the code computes on it, in [pd.sub]. *)
Record Joined := {
  state : string;
  cases_today : option Z;
  deaths_today : option Z;
  cases_yest : option Z;
  deaths_yest : option Z
}.

(** A row of the returned frame: the joined columns and the three
    columns the function adds. *)
Record Row := {
  joined :> Joined;
  todayCases : Z;
  todayDeaths : Z;
  state_code : option string
}.

Definition url_today : string :=
  "https://disease.sh/v3/covid-19/states?allowNull=true".
Definition url_yest : string :=
  "https://disease.sh/v3/covid-19/states?yesterday=true&allowNull=true".

Definition keep_cols : list string := ["state"; "cases"; "deaths"].

(** [pd.DataFrame(j)[keep_cols]].  The frame of an empty array has no
    columns, and the frame of a series has no [state] column: both
    selections raise [KeyError]. *)
Definition select_keep_cols (j : JSON) : M (list StatesApi.row) :=
  match j with
  | States (r :: rows) => mret (r :: rows)
  | States [] | Series [] => raise (KeyError keep_cols)
  | Series (_ :: _) => raise (KeyError ["state"])
  end.

Definition unmatched (t : StatesApi.row) : Joined :=
  {| state := StatesApi.state t;
     cases_today := StatesApi.cases t; deaths_today := StatesApi.deaths t;
     cases_yest := None; deaths_yest := None |}.

Definition matched (t y : StatesApi.row) : Joined :=
  {| state := StatesApi.state t;
     cases_today := StatesApi.cases t; deaths_today := StatesApi.deaths t;
     cases_yest := StatesApi.cases y; deaths_yest := StatesApi.deaths y |}.

(** [today.merge(yest, on="state", how="left")]: every left row, in
    order, once per right row of the same key, or once with NaN on the
    right when no right row has its key. *)
Definition merge_left (today yest : list StatesApi.row) : list Joined :=
  t ← today;
  match filter (λ y, StatesApi.state y = StatesApi.state t) yest with
  | [] => [unmatched t]
  | ys => matched t <$> ys
  end.

(** [df[name]] for a count column of the merged frame: the values of
    its rows, with the type the merge gives a column it takes from the
    column [source] of [today] or of [yest]. *)
Definition getitem (source : list (option Z)) (name : Joined → option Z)
    (df : list Joined) : pd.Series :=
  pd.reindex (pd.series source) (name <$> df).

(** The three column assignments, row by row. *)
Definition assign (df : list Joined) (tc td : list Z)
    (sc : list (option string)) : list Row :=
  zip_with (λ '(j, c) '(d, s),
              {| joined := j; todayCases := c; todayDeaths := d;
                 state_code := s |})
           (zip df tc) (zip td sc).

Definition fetch_states_snapshot (up : Upstream) : M (list Row) :=
  r1 ← requests_get up url_today;
  _ ← raise_for_status r1;
  today ← json r1;
  r2 ← requests_get up url_yest;
  _ ← raise_for_status r2;
  yest ← json r2;
  today ← select_keep_cols today;
  yest ← select_keep_cols yest;
  let df := merge_left today yest in
  let dc := pd.sub (getitem (StatesApi.cases <$> today) cases_today df)
                   (getitem (StatesApi.cases <$> yest) cases_yest df) in
  let tc := pd.clip 0 (pd.astype_int (pd.dtype_of dc) (pd.fillna 0 dc)) in
  let dd := pd.sub (getitem (StatesApi.deaths <$> today) deaths_today df)
                   (getitem (StatesApi.deaths <$> yest) deaths_yest df) in
  let td := pd.clip 0 (pd.astype_int (pd.dtype_of dd) (pd.fillna 0 dd)) in
  let sc := pd.map USPS (state <$> df) in
  let df := assign df tc td sc in
  mret (pd.mask df (pd.notna (state_code <$> df))).

End Snapshot.

(** ** Time-series fetchers (app.py, lines 63-87) *)

Module TimeSeries.

(** A value of a [datetime64] column: a timestamp in nanoseconds since
    the epoch, or [NaT]. *)
Inductive datetime := NaT | Timestamp (ns : Z).

#[global] Instance datetime_eq_dec : EqDecision datetime.
Proof. solve_decision. Defined.

(** The order of [sort_values]: timestamps ascending, [NaT] last. *)
Definition date_le (a b : datetime) : Prop :=
  match a, b with
  | Timestamp x, Timestamp y => x ≤ y
  | _, NaT => True
  | NaT, Timestamp _ => False
  end.

#[global] Instance date_le_dec : RelDecision date_le.
Proof. intros [|x] [|y]; simpl; apply _. Defined.

(** A row of the frame while it is transformed: the date is parsed, the
    other columns are the upstream's. *)
Record Dated := { parsed : datetime; point : NytApi.row }.

(** A row of the returned frame, [df[["date","cases","new_cases"]]]. *)
Record Row := { date : datetime; cases : Z; new_cases : Z }.

Definition by_date (a b : Dated) : Prop := date_le (parsed a) (parsed b).

#[global] Instance by_date_dec : RelDecision by_date.
Proof. intros a b. unfold by_date. apply _. Defined.

(** [df.sort_values("date")].  pandas leaves the relative order of rows
    of equal date unspecified; the model keeps one deterministic sort. *)
Definition sort_values (df : list Dated) : list Dated :=
  merge_sort by_date df.

(** The default of the parameter [days] of both fetchers. *)
Definition DEFAULT_DAYS : Z := 180.

Definition national_url (days : Z) : string :=
  "https://disease.sh/v3/covid-19/nyt/usa?lastdays=" +:+ pretty days.

Definition state_url (state_name : string) (days : Z) : string :=
  "https://disease.sh/v3/covid-19/nyt/states/" +:+ state_name
    +:+ "?lastdays=" +:+ pretty days.

(** [pd.DataFrame(data)] followed by the first access to [df["date"]]:
    the frame of an empty array has no columns, and the frame of a
    states array has no [date] column. *)
Definition getitem_date (data : JSON) : M (list NytApi.row) :=
  match data with
  | Series (p :: rows) => mret (p :: rows)
  | Series [] | States _ => raise (KeyError ["date"])
  end.

(** [df["date"] = dates]: a column of another length is refused. *)
Definition setitem_date (df : list NytApi.row) (dates : list datetime)
  : M (list Dated) :=
  if decide (length dates = length df)
  then mret (zip_with Build_Dated dates df)
  else raise (ValueError "Length of values does not match length of index").

Section Fetchers.

(** [pd.to_datetime] on a column of strings: the parsed column, or the
    text it raised on. *)
Variable to_datetime : list string → string + list datetime.

Definition pd_to_datetime (s : list string) : M (list datetime) :=
  match to_datetime s with
  | inl text => raise (ValueError text)
  | inr dates => mret dates
  end.

Definition fetch_national_timeseries (up : Upstream) (days : Z)
  : M (list Row) :=
  let url := national_url days in
  r ← requests_get up url;
  _ ← raise_for_status r;
  data ← json r;
  df ← getitem_date data;
  dates ← pd_to_datetime (NytApi.date <$> df);
  df ← setitem_date df dates;
  let df := sort_values df in
  let d := pd.diff (pd.series (Some <$> (NytApi.cases <$> (point <$> df)))) in
  let new_cases :=
    pd.astype_int (pd.dtype_of d) (pd.clip 0 (pd.fillna 0 d)) in
  mret (zip_with (λ d n, {| date := parsed d;
                            cases := NytApi.cases (point d);
                            new_cases := n |}) df new_cases).

Definition fetch_state_timeseries (up : Upstream) (state_name : string)
    (days : Z) : M (list Row) :=
  let url := state_url state_name days in
  r ← requests_get up url;
  _ ← raise_for_status r;
  data ← json r;
  df ← getitem_date data;
  dates ← pd_to_datetime (NytApi.date <$> df);
  df ← setitem_date df dates;
  let df := sort_values df in
  let d := pd.diff (pd.series (Some <$> (NytApi.cases <$> (point <$> df)))) in
  let new_cases :=
    pd.astype_int (pd.dtype_of d) (pd.clip 0 (pd.fillna 0 d)) in
  mret (zip_with (λ d n, {| date := parsed d;
                            cases := NytApi.cases (point d);
                            new_cases := n |}) df new_cases).

End Fetchers.

End TimeSeries.

(** ** Result cache (app.py, lines 26, 63 and 76) *)

Module Cache.

(** Modelled from the spec: the decorator [st.cache_data(ttl=...)] is
    Streamlit's and its code is not part of the repository.  This is the
    CacheEntry of section 3, under the key of its store. *)
Record Entry (R : Type) := { value : R; created_at : Z }.
Arguments value {R} _.
Arguments created_at {R} _.

Section CacheData.
Context {K : Type} `{Countable K} {R : Type}.

(** The argument of the decorator, in seconds. *)
Variable ttl : Z.
(** The decorated function, reading the upstream of the moment. *)
Variable f : Upstream → K → M R.

(** Modelled from the spec: the decorator is not part of the repository.
    An entry is valid while [now - created_at < ttl] (section 3). *)
Definition valid (now : Z) (e : Entry R) : bool :=
  bool_decide (now - created_at e < ttl).

(** Modelled from the spec: the decorator is not part of the repository.
    The real fetch of section 4.4: its result is stored with the time of
    the call; a failure stores nothing and the stale entry is discarded. *)
Definition miss (up : Upstream) (now : Z) (args : K)
    (store : gmap K (Entry R)) (log : list string)
  : result R * gmap K (Entry R) * list string :=
  match f up args log with
  | (inr v, log') =>
      (inr v, <[args := {| value := v; created_at := now |}]> store, log')
  | (inl e, log') => (inl e, delete args store, log')
  end.

(** Modelled from the spec: the decorator [st.cache_data(ttl=...)] is
    Streamlit's and its code is not part of the repository.  This is the
    [cached_call] of section 4.4: the stored value while the entry is
    valid, the real fetch otherwise.  The key is the argument tuple, each
    decorated function owning its store. *)
Definition cache_data (up : Upstream) (now : Z) (args : K)
    (store : gmap K (Entry R)) (log : list string)
  : result R * gmap K (Entry R) * list string :=
  match store !! args with
  | Some e =>
      if valid now e then (inr (value e), store, log)
      else miss up now args store log
  | None => miss up now args store log
  end.

End CacheData.

(** [ttl=60*30] at the three decorators. *)
Definition ttl : Z := 60 * 30.

Section Decorated.
Variable to_datetime : list string → string + list TimeSeries.datetime.

Definition fetch_states_snapshot :=
  cache_data ttl (λ up (_ : ()), Snapshot.fetch_states_snapshot up).

Definition fetch_national_timeseries :=
  cache_data ttl (λ up (days : Z),
    TimeSeries.fetch_national_timeseries to_datetime up days).

Definition fetch_state_timeseries :=
  cache_data ttl (λ up (args : string * Z),
    TimeSeries.fetch_state_timeseries to_datetime up args.1 args.2).
End Decorated.

End Cache.

(** * The page script (app.py, lines 89-162) *)

Module Dashboard.

(** [snap[name].sum()] of one of the two [int64] columns the snapshot
    adds: the sum wraps around at 2^63. *)
Definition sum (s : list Z) : Z := pd.wrap64 (foldr Z.add 0 s).

(** The digits of [f"{n:,}"], from the last one: a comma before every
    fourth digit.  [k] digits may still follow without a comma. *)
Fixpoint commas (k : nat) (rev_digits : list ascii) : list ascii :=
  match rev_digits with
  | [] => []
  | d :: tl =>
      match k with
      | O => ","%char :: d :: commas 2 tl
      | S k' => d :: commas k' tl
      end
  end.

Definition group_thousands (digits : string) : string :=
  string_of_list_ascii
    (reverse (commas 3 (reverse (list_ascii_of_string digits)))).

(** [f"{n:,}"] for an integer [n]. *)
Definition format_thousands (n : Z) : string :=
  if bool_decide (n < 0) then "-" +:+ group_thousands (pretty (- n))
  else group_thousands (pretty n).

(** The order of Python on strings of ASCII characters. *)
Definition str_le (a b : string) : Prop := String.leb a b = true.

#[global] Instance str_le_dec : RelDecision str_le.
Proof. intros a b. unfold str_le. apply _. Defined.

(** [sorted(list(USPS.keys()))]. *)
Definition sorted_keys (d : gmap string string) : list string :=
  merge_sort str_le ((map_to_list d).*1).

Definition DEFAULT_DAYS : Z := 180.

(** The options of the select box,
    [["United States"] + sorted(list(USPS.keys()))]. *)
Definition options : list string := "United States" :: sorted_keys USPS.

(** What the script shows, in order.  An error carries the text before
    the exception and the exception itself; a chart carries its frame and
    its title. *)
Inductive element :=
| error (text : string) (e : exn)
| metric (label value : string)
| subheader (body : string)
| choropleth (data_frame : list Snapshot.Row) (title : string)
| line (data_frame : list TimeSeries.Row) (title : string)
| dataframe (rows : list (string * Z * Z))
| caption (body : string).

(** The stores of the three decorated functions and the requests made
    so far. *)
Record Session := {
  snapshot_cache : gmap () (Cache.Entry (list Snapshot.Row));
  national_cache : gmap Z (Cache.Entry (list TimeSeries.Row));
  state_cache : gmap (string * Z) (Cache.Entry (list TimeSeries.Row));
  requests : list string
}.

Definition by_todayCases_desc (a b : Snapshot.Row) : Prop :=
  Snapshot.todayCases b ≤ Snapshot.todayCases a.

#[global] Instance by_todayCases_desc_dec : RelDecision by_todayCases_desc.
Proof. intros a b. unfold by_todayCases_desc. apply _. Defined.

(** [snap.sort_values("todayCases", ascending=False).head(10)].  pandas
    leaves the relative order of rows of equal count unspecified; the
    model keeps one deterministic sort. *)
Definition top10 (snap : list Snapshot.Row) : list Snapshot.Row :=
  take 10 (merge_sort by_todayCases_desc snap).

(** [top10[["state","todayCases","todayDeaths"]]], renamed. *)
Definition table (top : list Snapshot.Row) : list (string * Z * Z) :=
  (λ r : Snapshot.Row,
     (Snapshot.state (Snapshot.joined r), Snapshot.todayCases r,
      Snapshot.todayDeaths r))
    <$> top.

Section Script.

Variable to_datetime : list string → string + list TimeSeries.datetime.
(** The upstream and the clock during one run of the script. *)
Variable up : Upstream.
Variable now : Z.

(** Lines 132-138: the series of the chosen scope and its title. *)
Definition fetch_trend (state_choice : string) (days : Z) (s : Session)
  : result (list TimeSeries.Row * string) * Session :=
  if decide (state_choice = "United States") then
    let '(r, store, log) :=
      Cache.fetch_national_timeseries to_datetime up now days
        (national_cache s) (requests s) in
    (match r with
     | inl e => inl e
     | inr ts => inr (ts, "United States")
     end,
     {| snapshot_cache := snapshot_cache s; national_cache := store;
        state_cache := state_cache s; requests := log |})
  else
    let '(r, store, log) :=
      Cache.fetch_state_timeseries to_datetime up now (state_choice, days)
        (state_cache s) (requests s) in
    (match r with
     | inl e => inl e
     | inr ts => inr (ts, state_choice)
     end,
     {| snapshot_cache := snapshot_cache s;
        national_cache := national_cache s;
        state_cache := store; requests := log |}).

(** Lines 96-162, for the values [days] and [state_choice] of the two
    side-bar widgets: the elements shown and the session left.
    [st.stop()] ends the run. *)
Definition script (days : Z) (state_choice : string) (s : Session)
  : list element * Session :=
  let '(r, store, log) :=
    Cache.fetch_states_snapshot up now () (snapshot_cache s) (requests s) in
  let s := {| snapshot_cache := store; national_cache := national_cache s;
              state_cache := state_cache s; requests := log |} in
  match r with
  | inl e => ([error "Could not load state snapshot: " e], s)
  | inr snap =>
      let latest_total_cases := sum (Snapshot.todayCases <$> snap) in
      let latest_total_deaths := sum (Snapshot.todayDeaths <$> snap) in
      let shown :=
        [ metric "States reporting" (pretty (length snap));
          metric "New cases (today, sum of states)"
            (format_thousands latest_total_cases);
          metric "New deaths (today, sum of states)"
            (format_thousands latest_total_deaths);
          subheader "🧊 Heat Map — Today’s New Cases by State";
          choropleth snap "New Cases by State (today)";
          subheader "📈 Trend Line — New Cases Over Time" ] in
      let '(r, s) := fetch_trend state_choice days s in
      match r with
      | inl e => ((shown ++ [error "Could not load timeseries: " e])%list, s)
      | inr (ts, title) =>
          ((shown ++
            [ line ts ("New Cases — " +:+ title +:+ " (last "
                       +:+ pretty days +:+ " days)");
              subheader "🏅 Top 10 States — Today’s New Cases";
              dataframe (table (top10 snap));
              caption "Data: https://disease.sh (public, free). Note: numbers depend on state reporting cadence." ])%list,
           s)
      end
  end.

End Script.

End Dashboard.

(** * The vocabulary of the properties *)

(** ** A date parser for the ISO dates the NYT endpoint sends *)

Module IsoDate.
Import TimeSeries.

Definition digit (a : ascii) : option Z :=
  let n := Z.of_nat (nat_of_ascii a) in
  if bool_decide (48 ≤ n ≤ 57) then Some (n - 48) else None.

Fixpoint number (acc : Z) (s : list ascii) : option Z :=
  match s with
  | [] => Some acc
  | a :: s' => d ← digit a; number (10 * acc + d) s'
  end.

Definition is_leap (y : Z) : bool :=
  (y mod 4 =? 0) && (negb (y mod 100 =? 0) || (y mod 400 =? 0)).

Definition days_in_month (y m : Z) : Z :=
  if m =? 2 then (if is_leap y then 29 else 28)
  else if (m =? 4) || (m =? 6) || (m =? 9) || (m =? 11) then 30
  else 31.

(** Days from 1970-01-01 to the given civil date. *)
Definition days_from_civil (y m d : Z) : Z :=
  let y := if m <=? 2 then y - 1 else y in
  let era := y / 400 in
  let yoe := y - era * 400 in
  let doy := (153 * (if m >? 2 then m - 3 else m + 9) + 2) / 5 + d - 1 in
  let doe := yoe * 365 + yoe / 4 - yoe / 100 + doy in
  era * 146097 + doe - 719468.

Definition ns_per_day : Z := 86400 * 1000000000.

(** [YYYY-MM-DD] gives a timestamp, the empty string gives [NaT], and
    anything else is refused. *)
Definition parse (s : string) : string + datetime :=
  match String.list_ascii_of_string s with
  | [] => inr NaT
  | [y1; y2; y3; y4; "-"%char; m1; m2; "-"%char; d1; d2] =>
      match number 0 [y1; y2; y3; y4], number 0 [m1; m2],
            number 0 [d1; d2] with
      | Some y, Some m, Some d =>
          if bool_decide (1 ≤ m ≤ 12 ∧ 1 ≤ d ≤ days_in_month y m)
          then inr (Timestamp (days_from_civil y m d * ns_per_day))
          else inl s
      | _, _, _ => inl s
      end
  | _ => inl s
  end.

Fixpoint to_datetime (col : list string) : string + list datetime :=
  match col with
  | [] => inr []
  | s :: col' =>
      match parse s, to_datetime col' with
      | inl e, _ => inl e
      | _, inl e => inl e
      | inr d, inr ds => inr (d :: ds)
      end
  end.

End IsoDate.

(** ** Counts on which the columns compute in the integers *)

(** A count that [int64] and [float64] both hold exactly, and whose
    differences with other such counts they hold exactly too: from 0 to
    2^53. *)
Definition exact_count (c : Z) : Prop := 0 ≤ c ≤ 2 ^ 53.

#[global] Instance exact_count_dec c : Decision (exact_count c).
Proof. unfold exact_count. apply _. Defined.

(** A count of a states object that is null or from 0 to 2^53. *)
Definition exact_or_null (o : option Z) : Prop :=
  match o with
  | Some c => exact_count c
  | None => True
  end.

#[global] Instance exact_or_null_dec o : Decision (exact_or_null o).
Proof. destruct o; simpl; apply _. Defined.

(** The sum of a column, in the integers. *)
Definition total (s : list Z) : Z := foldr Z.add 0 s.

(** ** The snapshot fetcher, row by row *)

Module SnapshotProps.
Import Snapshot.

(** The [safe_delta] of section 9 of the specification: the clipped
    difference when both counts are present, else 0. *)
Definition safe_delta (current prior : option Z) : Z :=
  match current, prior with
  | Some c, Some p => Z.max 0 (c - p)
  | _, _ => 0
  end.

(** The delta of one row, in a difference column of type [dt]. *)
Definition delta (dt : pd.dtype) (current prior : option Z) : Z :=
  Z.max 0 (pd.cast dt (default 0 (pd.sub_cell dt current prior))).

(** The types of the two difference columns of lines 52 and 53. *)
Definition cases_type (today yest : list StatesApi.row) : pd.dtype :=
  let df := merge_left today yest in
  pd.dtype_of (pd.sub (getitem (StatesApi.cases <$> today) cases_today df)
                      (getitem (StatesApi.cases <$> yest) cases_yest df)).

Definition deaths_type (today yest : list StatesApi.row) : pd.dtype :=
  let df := merge_left today yest in
  pd.dtype_of (pd.sub (getitem (StatesApi.deaths <$> today) deaths_today df)
                      (getitem (StatesApi.deaths <$> yest) deaths_yest df)).

Definition finish (tc td : pd.dtype) (j : Joined) : Row :=
  {| joined := j;
     todayCases := delta tc (cases_today j) (cases_yest j);
     todayDeaths := delta td (deaths_today j) (deaths_yest j);
     state_code := USPS !! state j |}.

Definition rows (today yest : list StatesApi.row) : list Row :=
  filter (λ r : Row, is_Some (state_code r))
    (finish (cases_type today yest) (deaths_type today yest)
       <$> merge_left today yest).

(** A retrieval the fetcher accepts: a response whose status
    [raise_for_status] lets through and whose body is a non-empty array
    of state objects. *)
Definition accepted (up : Upstream) (url : string)
    (table : list StatesApi.row) : Prop :=
  ∃ r, up url = Some r ∧ ¬ (400 ≤ status_code r < 600)
       ∧ body r = Some (States table) ∧ table ≠ [].

(** The delta rule of a returned row, for one pair of columns: the
    delta is not negative; it is 0 when a count is missing; and it is the
    clipped difference of the two counts when both are present and from
    0 to 2^53. *)
Definition delta_rule (current prior : option Z) (delta : Z) : Prop :=
  0 ≤ delta
  ∧ (current = None ∨ prior = None → delta = 0)
  ∧ (∀ c p, current = Some c → prior = Some p → exact_count c → exact_count p →
            delta = Z.max 0 (c - p)).





(** A table whose counts are null or from 0 to 2^53. *)
Definition exact_table (table : list StatesApi.row) : Prop :=
  Forall (λ t, exact_or_null (StatesApi.cases t)
               ∧ exact_or_null (StatesApi.deaths t)) table.

(** A retrieval that fails: no response, or a status for which
    [raise_for_status] raises. *)
Definition failed (up : Upstream) (url : string) : Prop :=
  match up url with
  | None => True
  | Some r => 400 ≤ status_code r < 600
  end.

(** A retrieval that fails in the words of the specification: no
    response, or a status outside 200..299. *)
Definition failed_non_2xx (up : Upstream) (url : string) : Prop :=
  match up url with
  | None => True
  | Some r => ¬ (200 ≤ status_code r < 300)
  end.

End SnapshotProps.

(** ** Upstreams and tables for concrete runs of the snapshot fetcher *)

Module SnapshotRuns.
Import Snapshot SnapshotProps.

Definition serve (today yest : list StatesApi.row) : Upstream := λ url,
  if decide (url = url_today)
  then Some {| status_code := 200; body := Some (States today) |}
  else if decide (url = url_yest)
  then Some {| status_code := 200; body := Some (States yest) |}
  else None.

Definition obj (s : string) (c d : Z) : StatesApi.row :=
  {| StatesApi.state := s; StatesApi.cases := Some c;
     StatesApi.deaths := Some d |}.

Definition deltas (r : result (list Row) * list string) :=
  match r.1 with
  | inl _ => None
  | inr df => Some ((λ r : Row, (state r, todayCases r, todayDeaths r)) <$> df)
  end.

Definition null_cases (s : string) (d : Z) : StatesApi.row :=
  {| StatesApi.state := s; StatesApi.cases := None;
     StatesApi.deaths := Some d |}.

Definition today_rows : list StatesApi.row :=
  [ obj "Texas" 100 5; obj "Ohio" 50 2;
    obj "Utah" 30 1; obj "Guam" 9 0 ].

Definition yest_rows : list StatesApi.row :=
  [ obj "Texas" 120 4; null_cases "Ohio" 1;
    obj "Iowa" 8 0 ].

(** Texas was revised downwards, Ohio has a null prior count, Utah and
    Guam have no prior row, and Guam has no code. *)
Definition revised : Upstream := serve today_rows yest_rows.

Definition revised_frame : list Row :=
  Eval vm_compute in rows today_rows yest_rows.

(** The current-period retrieval answers 503. *)
Definition unavailable : Upstream := λ url,
  if decide (url = url_today)
  then Some {| status_code := 503; body := None |}
  else revised url.

(** The current-period retrieval answers 300 (Multiple Choices) with the
    table as its body: a status outside 200..299 that [raise_for_status]
    lets through. *)
Definition multiple_choices : Upstream := λ url,
  if decide (url = url_today)
  then Some {| status_code := 300; body := Some (States today_rows) |}
  else revised url.

(** Texas reports 2^53 + 1 cases after none, and Ohio reports no count
    of cases, which makes the column of the current counts [float64]. *)
Definition above_2_53_today : list StatesApi.row :=
  [ obj "Texas" 9007199254740993 0; null_cases "Ohio" 0 ].

Definition above_2_53_yest : list StatesApi.row :=
  [ obj "Texas" 0 0; obj "Ohio" 7 0 ].

Definition above_2_53 : Upstream := serve above_2_53_today above_2_53_yest.

(** Texas reports 2^63 - 1 cases after none, again next to a null. *)
Definition near_2_63_today : list StatesApi.row :=
  [ obj "Texas" 9223372036854775807 0; null_cases "Ohio" 0 ].

Definition near_2_63 : Upstream := serve near_2_63_today above_2_53_yest.


End SnapshotRuns.

(** ** The time-series fetchers as one function of the response *)

Module TimeSeriesProps.
Import TimeSeries.

(** The new cases of a day with the count [c] after a day with the
    count [prev], as line 73 computes them: the difference of the two
    counts in [float64], clipped, then cast to [int64]. *)
Definition new_case (prev c : Z) : Z :=
  pd.to_int64 (Z.max 0 (pd.f64 (pd.f64 c - pd.f64 prev))).

(** The new cases of a column of counts after the count [prev]. *)
Fixpoint clipped_diffs (prev : Z) (cs : list Z) : list Z :=
  match cs with
  | [] => []
  | c :: tl => new_case prev c :: clipped_diffs c tl
  end.

(** The [new_cases] column of a column of counts. *)
Definition new_cases_column (cs : list Z) : list Z :=
  let d := pd.diff (pd.series (Some <$> cs)) in
  pd.astype_int (pd.dtype_of d) (pd.clip 0 (pd.fillna 0 d)).

Definition row_of (d : Dated) (n : Z) : Row :=
  {| date := parsed d; cases := NytApi.cases (point d); new_cases := n |}.

(** The returned frame of a sorted frame. *)
Definition frame (df : list Dated) : list Row :=
  zip_with row_of df (new_cases_column (NytApi.cases <$> (point <$> df))).

Definition rows_after (prev : Z) (df : list Dated) : list Row :=
  zip_with row_of df (clipped_diffs prev (NytApi.cases <$> (point <$> df))).



Section Fetchers.
Variable to_datetime : list string → string + list datetime.

(** What either fetcher makes of the outcome of its GET. *)
Definition after_get (o : option Response) : result (list Row) :=
  match o with
  | None => inl ConnectionError
  | Some r =>
      if bool_decide (400 ≤ status_code r < 600)
      then inl (HTTPError (status_code r))
      else match body r with
           | None => inl JSONDecodeError
           | Some (Series (p :: rows)) =>
               let df := p :: rows in
               match to_datetime (NytApi.date <$> df) with
               | inl text => inl (ValueError text)
               | inr dates =>
                   if decide (length dates = length df)
                   then inr (frame (sort_values
                                      (zip_with Build_Dated dates df)))
                   else inl (ValueError
                     "Length of values does not match length of index")
               end
           | Some _ => inl (KeyError ["date"])
           end
  end.

(** [out] is a frame returned by one of the two fetchers. *)
Definition returned (up : Upstream) (state_name : string) (days : Z)
    (log : list string) (out : list Row) : Prop :=
  (fetch_national_timeseries to_datetime up days log).1 = inr out
  ∨ (fetch_state_timeseries to_datetime up state_name days log).1
    = inr out.

End Fetchers.

End TimeSeriesProps.

(** ** Upstreams and payloads for concrete runs of the time-series fetchers *)

Module TimeSeriesRuns.
Import TimeSeries TimeSeriesProps.

Definition serve (url : string) (points : list NytApi.row) : Upstream :=
  λ u, if decide (u = url)
       then Some {| status_code := 200; body := Some (Series points) |}
       else None.

Definition pt (d : string) (c : Z) : NytApi.row :=
  {| NytApi.date := d; NytApi.cases := c; NytApi.deaths := 0 |}.

Definition column {A} (f : Row → A) (r : result (list Row) * list string)
  : option (list A) :=
  match r.1 with inl _ => None | inr df => Some (f <$> df) end.

(** Three days of Ohio, delivered out of order. *)
Definition ohio_points : list NytApi.row :=
  [ pt "2020-03-03" 25;
    pt "2020-03-01" 10;
    pt "2020-03-02" 30 ].

Definition ohio_response : Response :=
  {| status_code := 200; body := Some (Series ohio_points) |}.

(** The upstream answers the state URL and the national URL alike. *)
Definition ohio : Upstream := λ url,
  if decide (url = state_url "Ohio" 365) then Some ohio_response
  else if decide (url = national_url 180) then Some ohio_response
  else None.

Definition ohio_dates : list datetime :=
  Eval vm_compute in
    match IsoDate.to_datetime (NytApi.date <$> ohio_points) with
    | inr dates => dates
    | inl _ => []
    end.

Definition ohio_frame : list Row :=
  Eval vm_compute in
    frame (sort_values (zip_with Build_Dated ohio_dates ohio_points)).




End TimeSeriesRuns.

(** ** The result cache, call by call *)

Module CacheProps.
Import Cache.

Section CacheData.
Context {K : Type} `{Countable K} {R : Type}.
Variable ttl : Z.
Variable f : Upstream → K → M R.

(** No valid entry for [args] at time [now]. *)
Definition stale (now : Z) (args : K) (store : gmap K (Entry R)) : Prop :=
  match store !! args with
  | None => True
  | Some e => ttl ≤ now - created_at e
  end.

(** What a memoized function [cached] of [f] does, call by call.
    - A call that finds no valid entry runs [f] on the upstream of the
      moment: it has the result and the requests of [f], and a
      returned result is stored with the time of the call.
    - A call that finds an entry younger than [ttl] returns its value,
      whatever the upstream is, and requests nothing.
    - A call that finds an entry of age [ttl] or more runs [f] again,
      which requests at least one URL.
    - Hence, after a call at [t0] that ran [f] and returned [v], a call
      at [t1] with [t1 - t0 < ttl] returns [v] and requests nothing,
      whatever the upstream has become. *)
Definition memoized
    (cached : Upstream → Z → K → gmap K (Entry R) → list string →
              result R * gmap K (Entry R) * list string) : Prop :=
  (∀ up now args store log v log',
      stale now args store → f up args log = (inr v, log') →
      cached up now args store log
      = (inr v, <[args := {| value := v; created_at := now |}]> store,
         log'))
  ∧ (∀ up now args store log v t0,
      store !! args = Some {| value := v; created_at := t0 |} →
      now - t0 < ttl →
      cached up now args store log = (inr v, store, log))
  ∧ (∀ up now args store log v t0,
      store !! args = Some {| value := v; created_at := t0 |} →
      ttl ≤ now - t0 →
      (cached up now args store log).1.1 = (f up args log).1
      ∧ ∃ urls, urls ≠ []
          ∧ (cached up now args store log).2 = (log ++ urls)%list)
  ∧ (∀ up up' t0 t1 args store log v log',
      stale t0 args store → f up args log = (inr v, log') →
      t1 - t0 < ttl →
      let '(_, store0, log0) := cached up t0 args store log in
      cached up' t1 args store0 log0 = (inr v, store0, log0)).

(** [f] requests at least one URL on every call. *)
Definition contacts_upstream : Prop :=
  ∀ up args log, ∃ urls, urls ≠ [] ∧ (f up args log).2 = (log ++ urls)%list.

End CacheData.

(** The store after a snapshot computed at time 0. *)
Definition warm : gmap () (Entry (list Snapshot.Row)) :=
  {[ () := {| value := SnapshotRuns.revised_frame; created_at := 0 |} ]}.

End CacheProps.

(** ** Failures of a retrieval, and what the upstream delivers *)

Module RetrievalProps.

(** The exception a retrieval ends in before its body is used as a
    table: no response, a status [raise_for_status] rejects, or a body
    that does not decode. *)
Definition retrieval_error (o : option Response) : option exn :=
  match o with
  | None => Some ConnectionError
  | Some r =>
      if bool_decide (400 ≤ status_code r < 600)
      then Some (HTTPError (status_code r))
      else match body r with
           | None => Some JSONDecodeError
           | Some _ => None
           end
  end.

(** The upstream answers [url] with the table [table] of state objects,
    empty or not, under a status that is let through. *)
Definition serves_states (up : Upstream) (url : string)
    (table : list StatesApi.row) : Prop :=
  ∃ r, up url = Some r ∧ ¬ (400 ≤ status_code r < 600)
       ∧ body r = Some (States table).

Section Delivers.
Variable to_datetime : list string → string + list TimeSeries.datetime.

(** The upstream answers [url] with the series [points], whose dates
    parse to [dates]. *)
Definition delivers (up : Upstream) (url : string)
    (points : list NytApi.row) (dates : list TimeSeries.datetime) : Prop :=
  ∃ r, up url = Some r ∧ ¬ (400 ≤ status_code r < 600)
       ∧ body r = Some (Series points)
       ∧ to_datetime (NytApi.date <$> points) = inr dates
       ∧ length dates = length points.

End Delivers.

(** The columns of a returned row that come from the current period. *)
Definition current (row : Snapshot.Row) : string * option Z * option Z :=
  (Snapshot.state (Snapshot.joined row),
   Snapshot.cases_today (Snapshot.joined row),
   Snapshot.deaths_today (Snapshot.joined row)).

Definition current_of (t : StatesApi.row) : string * option Z * option Z :=
  (StatesApi.state t, StatesApi.cases t, StatesApi.deaths t).

End RetrievalProps.

(** ** Upstreams for further runs of the snapshot fetcher *)

Module SnapshotMoreRuns.
Import Snapshot SnapshotRuns.

(** The prior-period retrieval answers 500. *)
Definition prior_unavailable : Upstream := λ url,
  if decide (url = url_yest)
  then Some {| status_code := 500; body := None |}
  else revised url.

(** The prior-period retrieval answers an empty array. *)
Definition prior_empty : Upstream := serve today_rows [].

(** Both retrievals answer the same table. *)
Definition unchanged : Upstream := serve today_rows today_rows.

Definition unchanged_frame : list Row :=
  Eval vm_compute in SnapshotProps.rows today_rows today_rows.

End SnapshotMoreRuns.

(** ** Upstreams for further runs of the time-series fetchers *)

Module TimeSeriesMoreRuns.
Import TimeSeries TimeSeriesProps TimeSeriesRuns.

(** Three days of growing counts, the first two delivered swapped. *)
Definition growing_points : list NytApi.row :=
  [ pt "2020-03-02" 12; pt "2020-03-01" 10; pt "2020-03-03" 25 ].

(** The same three days in the order of their dates. *)
Definition growing_points_in_order : list NytApi.row :=
  [ pt "2020-03-01" 10; pt "2020-03-02" 12; pt "2020-03-03" 25 ].

Definition growing : Upstream := serve (state_url "Ohio" 60) growing_points.

Definition growing_in_order : Upstream :=
  serve (state_url "Ohio" 60) growing_points_in_order.

Definition dates_of (points : list NytApi.row) : list datetime :=
  match IsoDate.to_datetime (NytApi.date <$> points) with
  | inr dates => dates
  | inl _ => []
  end.

Definition growing_dates : list datetime :=
  Eval vm_compute in dates_of growing_points.

Definition growing_dates_in_order : list datetime :=
  Eval vm_compute in dates_of growing_points_in_order.

Definition growing_frame : list Row :=
  Eval vm_compute in
    frame (sort_values (zip_with Build_Dated growing_dates growing_points)).

Definition march_1 : Row :=
  Eval vm_compute in default (Build_Row NaT 0 0) (head growing_frame).

Definition march_3 : Row :=
  Eval vm_compute in default (Build_Row NaT 0 0) (last growing_frame).

Definition ohio_first : Row :=
  Eval vm_compute in default (Build_Row NaT 0 0) (head ohio_frame).

Definition ohio_last : Row :=
  Eval vm_compute in default (Build_Row NaT 0 0) (last ohio_frame).

(** The source knows no such region and answers 404. *)
Definition unknown_region : Upstream := λ url,
  Some {| status_code := 404; body := None |}.

(** The count the differences after [prev] end at. *)
Definition final_count (prev : Z) (out : list Row) : Z :=
  default prev (cases <$> last out).

End TimeSeriesMoreRuns.

(** ** The page script: sessions, URLs and texts *)

Module DashboardProps.
Import Dashboard.

(** The session of a fresh process: nothing cached, nothing requested. *)
Definition cold : Session :=
  {| snapshot_cache := ∅; national_cache := ∅; state_cache := ∅;
     requests := [] |}.


(** A text without its commas. *)
Definition strip_commas (s : string) : string :=
  string_of_list_ascii
    (filter (λ a, a ≠ ","%char) (list_ascii_of_string s)).

Definition comma_free (s : string) : Prop :=
  ","%char ∉ list_ascii_of_string s.



(** The snapshot of [SnapshotRuns.revised] and the series of
    [TimeSeriesRuns.ohio], from one upstream. *)
Definition both : Upstream := λ url,
  match SnapshotRuns.revised url with
  | Some r => Some r
  | None => TimeSeriesRuns.ohio url
  end.


(** Nothing answers. *)
Definition all_down : Upstream := λ url, None.

End DashboardProps.

(** * Properties *)

(** ** The request monad *)

Lemma bind_inr {A B} (m : M A) (f : A → M B) log v log' :
  (x ← m; f x) log = (inr v, log') →
  ∃ x log1, m log = (inr x, log1) ∧ f x log1 = (inr v, log').
Proof.
  unfold mbind, M_bind. destruct (m log) as [[e|x] log1]; [discriminate|].
  intros Hf. by exists x, log1.
Qed.

Lemma bind_run_inr {A B} (m : M A) (f : A → M B) log x log1 :
  m log = (inr x, log1) → (x ← m; f x) log = f x log1.
Proof. unfold mbind, M_bind. by intros ->. Qed.

Lemma requests_get_inr up url log r log' :
  requests_get up url log = (inr r, log') →
  up url = Some r ∧ log' = (log ++ [url])%list.
Proof.
  unfold requests_get. destruct (up url) as [r'|]; [|discriminate].
  by intros [= -> <-].
Qed.

Lemma raise_for_status_inr r log u log' :
  raise_for_status r log = (inr u, log') →
  ¬ (400 ≤ status_code r < 600) ∧ log' = log.
Proof.
  unfold raise_for_status. case_bool_decide; [discriminate|].
  by intros [= <-].
Qed.

Lemma json_inr r log j log' :
  json r log = (inr j, log') → body r = Some j ∧ log' = log.
Proof.
  unfold json. destruct (body r); [|discriminate]. by intros [= -> <-].
Qed.

(** ** The arithmetic of pandas columns *)

Lemma wrap64_exact z : - 2 ^ 63 ≤ z < 2 ^ 63 → pd.wrap64 z = z.
Proof. intros Hz. unfold pd.wrap64. rewrite Z.mod_small by lia. lia. Qed.

Lemma to_int64_exact z : - 2 ^ 63 ≤ z < 2 ^ 63 → pd.to_int64 z = z.
Proof. intros Hz. unfold pd.to_int64. by rewrite bool_decide_eq_true_2. Qed.

(** [float64] holds every whole number up to 2^53 in magnitude. *)
Lemma f64_exact z : - 2 ^ 53 ≤ z ≤ 2 ^ 53 → pd.f64 z = z.
Proof.
  intros Hz. unfold pd.f64. case_bool_decide as Ha; [done|].
  assert (Hends : z = 2 ^ 53 ∨ z = - 2 ^ 53) by lia.
  destruct Hends as [-> | ->]; vm_compute; reflexivity.
Qed.

Example f64_ties_to_even :
  pd.f64 (2 ^ 53 + 1) = 2 ^ 53 ∧ pd.f64 (2 ^ 53 + 3) = 2 ^ 53 + 4.
Proof. split; vm_compute; reflexivity. Qed.

Example f64_near_2_63 : pd.f64 (2 ^ 63 - 1) = 2 ^ 63.
Proof. vm_compute. reflexivity. Qed.

Example to_int64_out_of_range : pd.to_int64 (2 ^ 63) = - 2 ^ 63.
Proof. vm_compute. reflexivity. Qed.

(** On counts from 0 to 2^53 a subtraction followed by the cast to
    [int64] is the subtraction of the integers, in every column type. *)
Lemma cast_sub_exact dt c p :
  exact_count c → exact_count p →
  pd.cast dt (default 0 (pd.sub_cell dt (Some c) (Some p))) = c - p.
Proof.
  unfold exact_count. intros Hc Hp. unfold pd.sub_cell, pd.cast.
  cbn [default from_option id]. destruct dt.
  - apply wrap64_exact. lia.
  - unfold pd.wrap64. rewrite Z.add_mod_idemp_l by lia.
    rewrite Z.mod_small by lia. lia.
  - rewrite (f64_exact c), (f64_exact p) by lia.
    rewrite f64_exact by lia. apply to_int64_exact. lia.
Qed.

Lemma cast_sub_diag dt c :
  pd.cast dt (default 0 (pd.sub_cell dt (Some c) (Some c))) = 0.
Proof.
  unfold pd.sub_cell, pd.cast. cbn [default from_option id].
  destruct dt; rewrite Z.sub_diag; vm_compute; reflexivity.
Qed.

Lemma cast_0 dt : pd.cast dt 0 = 0.
Proof. by destruct dt. Qed.

(** ** pandas columns taken from one frame *)

Lemma pd_mask_notna {A B} (f : A → option B) (df : list A) :
  pd.mask df (pd.notna (f <$> df)) = filter (λ r, is_Some (f r)) df.
Proof.
  unfold pd.notna. induction df as [|r df IH]; [done|].
  rewrite !fmap_cons, filter_cons. cbn [pd.mask]. rewrite IH.
  case_bool_decide; by case_decide.
Qed.

(** ** The Region Code Table *)

Module RegionCodesFacts.

Example usps_texas : USPS !! "Texas" = Some "TX".
Proof. vm_compute. reflexivity. Qed.

Example usps_guam : USPS !! "Guam" = None.
Proof. vm_compute. reflexivity. Qed.

Example usps_size : size USPS = 51%nat.
Proof. vm_compute. reflexivity. Qed.

Lemma USPS_names_NoDup : NoDup (USPS_items.*1).
Proof. apply (bool_decide_unpack _). vm_compute. reflexivity. Qed.

Lemma USPS_codes_NoDup : NoDup (USPS_items.*2).
Proof. apply (bool_decide_unpack _). vm_compute. reflexivity. Qed.

(** A lookup in the table is an item of the literal. *)
Lemma USPS_lookup name code :
  USPS !! name = Some code ↔ (name, code) ∈ USPS_items.
Proof.
  unfold USPS. rewrite <- elem_of_list_to_map.
  - apply elem_of_reverse.
  - rewrite fmap_reverse, reverse_Permutation. apply USPS_names_NoDup.
Qed.

Lemma USPS_reverse_lookup code name :
  USPS_reverse !! code = Some name ↔ (name, code) ∈ USPS_items.
Proof.
  unfold USPS_reverse. rewrite <- elem_of_list_to_map.
  - rewrite elem_of_reverse, list_elem_of_fmap. split.
    + intros ([n c] & [= -> ->] & Hin). exact Hin.
    + intros Hin. by exists (name, code).
  - rewrite fmap_reverse, <- list_fmap_compose, reverse_Permutation.
    apply USPS_codes_NoDup.
Qed.

(** ** C9 *)

(** C9. The table is injective: two names with the same code are the
    same name.  It has 51 entries, and the reverse table, from code to
    name, is a map with the same 51 entries that inverts it. *)
Theorem USPS_injective :
  (∀ n1 n2 code,
      USPS !! n1 = Some code → USPS !! n2 = Some code → n1 = n2)
  ∧ size USPS = 51%nat
  ∧ size USPS_reverse = 51%nat
  ∧ (∀ name code,
      USPS_reverse !! code = Some name ↔ USPS !! name = Some code).
Proof.
  assert (Hinv : ∀ name code,
    USPS_reverse !! code = Some name ↔ USPS !! name = Some code).
  { intros. by rewrite USPS_reverse_lookup, USPS_lookup. }
  split_and!; [|by vm_compute..|exact Hinv].
  intros n1 n2 code H1 H2. apply Hinv in H1, H2. congruence.
Qed.

End RegionCodesFacts.

(** ** The snapshot fetcher: its frame *)

Module SnapshotFacts.
Import Snapshot SnapshotProps.

Lemma delta_column (s1 s2 : list (option Z)) (f g : Joined → option Z)
    (df : list Joined) :
  (let d := pd.sub (getitem s1 f df) (getitem s2 g df) in
   pd.clip 0 (pd.astype_int (pd.dtype_of d) (pd.fillna 0 d)))
  = (λ j, delta (pd.dtype_of (pd.sub (getitem s1 f df) (getitem s2 g df)))
            (f j) (g j)) <$> df.
Proof.
  cbv zeta.
  unfold pd.clip, pd.astype_int, pd.fillna, pd.sub, getitem, pd.reindex.
  cbn [pd.values pd.dtype_of].
  rewrite zip_with_fmap_l, zip_with_fmap_r, zip_with_diag.
  rewrite <- !list_fmap_compose. reflexivity.
Qed.

Lemma delta_nonneg dt current prior : 0 ≤ delta dt current prior.
Proof. unfold delta. lia. Qed.

Lemma delta_None_l dt prior : delta dt None prior = 0.
Proof. unfold delta. cbn [pd.sub_cell default from_option]. by rewrite cast_0. Qed.

Lemma delta_None_r dt current : delta dt current None = 0.
Proof.
  unfold delta. destruct current; cbn [pd.sub_cell default from_option];
    by rewrite cast_0.
Qed.

Lemma delta_diag dt current : delta dt current current = 0.
Proof.
  destruct current as [c|]; [|apply delta_None_l].
  unfold delta. by rewrite cast_sub_diag.
Qed.

(** On counts from 0 to 2^53 the delta is the clipped difference. *)
Lemma delta_exact dt c p :
  exact_count c → exact_count p →
  delta dt (Some c) (Some p) = Z.max 0 (c - p).
Proof. intros Hc Hp. unfold delta. by rewrite cast_sub_exact. Qed.

Lemma assign_fmap (c d : Joined → Z) (s : Joined → option string) df :
  assign df (c <$> df) (d <$> df) (s <$> df)
  = (λ j, {| joined := j; todayCases := c j; todayDeaths := d j;
             state_code := s j |}) <$> df.
Proof.
  unfold assign. induction df as [|j df IH]; [done|].
  rewrite !fmap_cons. simpl. f_equal. apply IH.
Qed.

Lemma select_keep_cols_inr j log t log' :
  select_keep_cols j log = (inr t, log') →
  j = States t ∧ t ≠ [] ∧ log' = log.
Proof.
  destruct j as [[|r l]|[|p l]]; simpl; try discriminate.
  by intros [= <- <-].
Qed.

Lemma frame_rows today yest :
  (let df := merge_left today yest in
   let dc := pd.sub (getitem (StatesApi.cases <$> today) cases_today df)
                    (getitem (StatesApi.cases <$> yest) cases_yest df) in
   let tc := pd.clip 0 (pd.astype_int (pd.dtype_of dc) (pd.fillna 0 dc)) in
   let dd := pd.sub (getitem (StatesApi.deaths <$> today) deaths_today df)
                    (getitem (StatesApi.deaths <$> yest) deaths_yest df) in
   let td := pd.clip 0 (pd.astype_int (pd.dtype_of dd) (pd.fillna 0 dd)) in
   let sc := pd.map USPS (state <$> df) in
   let df := assign df tc td sc in
   pd.mask df (pd.notna (state_code <$> df)))
  = rows today yest.
Proof.
  cbv zeta.
  pose proof (delta_column (StatesApi.cases <$> today)
                (StatesApi.cases <$> yest) cases_today cases_yest
                (merge_left today yest)) as Hc.
  pose proof (delta_column (StatesApi.deaths <$> today)
                (StatesApi.deaths <$> yest) deaths_today deaths_yest
                (merge_left today yest)) as Hd.
  cbv zeta in Hc, Hd. rewrite Hc, Hd. unfold pd.map.
  rewrite <- list_fmap_compose.
  rewrite (assign_fmap _ _ ((λ k, USPS !! k) ∘ state)).
  rewrite pd_mask_notna. reflexivity.
Qed.

(** When the call returns, both retrievals were accepted, both URLs were
    requested, and the frame is [rows]. *)
Lemma fetch_states_snapshot_inr up log out log' :
  fetch_states_snapshot up log = (inr out, log') →
  ∃ today yest,
    accepted up url_today today ∧ accepted up url_yest yest
    ∧ out = rows today yest
    ∧ log' = (log ++ [url_today; url_yest])%list.
Proof.
  unfold fetch_states_snapshot. intros Hrun.
  apply bind_inr in Hrun as (r1 & l1 & Hg1 & Hrun).
  apply requests_get_inr in Hg1 as [Hr1 ->].
  apply bind_inr in Hrun as (u1 & l1 & Hs1 & Hrun).
  apply raise_for_status_inr in Hs1 as [Hs1 ->].
  apply bind_inr in Hrun as (j1 & l1 & Hj1 & Hrun).
  apply json_inr in Hj1 as [Hj1 ->].
  apply bind_inr in Hrun as (r2 & l2 & Hg2 & Hrun).
  apply requests_get_inr in Hg2 as [Hr2 ->].
  apply bind_inr in Hrun as (u2 & l2 & Hs2 & Hrun).
  apply raise_for_status_inr in Hs2 as [Hs2 ->].
  apply bind_inr in Hrun as (j2 & l2 & Hj2 & Hrun).
  apply json_inr in Hj2 as [Hj2 ->].
  apply bind_inr in Hrun as (today & l3 & Hk1 & Hrun).
  apply select_keep_cols_inr in Hk1 as (-> & Hne1 & ->).
  apply bind_inr in Hrun as (yest & l3 & Hk2 & Hrun).
  apply select_keep_cols_inr in Hk2 as (-> & Hne2 & ->).
  rewrite frame_rows in Hrun. injection Hrun as <- <-.
  exists today, yest. rewrite <- (assoc_L (++)).
  repeat split; [by exists r1 | by exists r2].
Qed.

(** Conversely, two accepted retrievals make the call return. *)
Lemma fetch_states_snapshot_accepted up log today yest :
  accepted up url_today today → accepted up url_yest yest →
  fetch_states_snapshot up log
  = (inr (rows today yest), (log ++ [url_today; url_yest])%list).
Proof.
  intros (r1 & Hr1 & Hs1 & Hb1 & Hne1) (r2 & Hr2 & Hs2 & Hb2 & Hne2).
  unfold fetch_states_snapshot.
  rewrite (bind_run_inr _ _ _ r1 (log ++ [url_today])%list)
    by (unfold requests_get; by rewrite Hr1).
  rewrite (bind_run_inr _ _ _ () (log ++ [url_today])%list)
    by (unfold raise_for_status; by rewrite bool_decide_eq_false_2).
  rewrite (bind_run_inr _ _ _ (States today) (log ++ [url_today])%list)
    by (unfold json; by rewrite Hb1).
  rewrite (bind_run_inr _ _ _ r2 ((log ++ [url_today]) ++ [url_yest])%list)
    by (unfold requests_get; by rewrite Hr2).
  rewrite (bind_run_inr _ _ _ () ((log ++ [url_today]) ++ [url_yest])%list)
    by (unfold raise_for_status; by rewrite bool_decide_eq_false_2).
  rewrite (bind_run_inr _ _ _ (States yest)
             ((log ++ [url_today]) ++ [url_yest])%list)
    by (unfold json; by rewrite Hb2).
  rewrite (bind_run_inr _ _ _ today ((log ++ [url_today]) ++ [url_yest])%list)
    by (destruct today; done).
  rewrite (bind_run_inr _ _ _ yest ((log ++ [url_today]) ++ [url_yest])%list)
    by (destruct yest; done).
  rewrite frame_rows. by rewrite <- (assoc_L (++)).
Qed.

(** The rows of the left join: each left row, matched with every right
    row of its key, or alone when the right side lacks the key. *)
Lemma elem_of_merge_left j today yest :
  j ∈ merge_left today yest ↔
  ∃ t, t ∈ today
    ∧ ((j = unmatched t
        ∧ Forall (λ y, StatesApi.state y ≠ StatesApi.state t) yest)
       ∨ ∃ y, y ∈ yest ∧ StatesApi.state y = StatesApi.state t
              ∧ j = matched t y).
Proof.
  unfold merge_left. rewrite list_elem_of_bind. split.
  - intros (t & Hj & Ht). exists t. split; [done|].
    destruct (filter _ yest) as [|y0 ys] eqn:Hf.
    + left. apply list_elem_of_singleton in Hj. split; [done|].
      apply Forall_forall. intros y Hy Heq.
      by apply (filter_nil_not_elem_of _ _ y Hf).
    + right. apply list_elem_of_fmap in Hj as (y & -> & Hy).
      rewrite <- Hf in Hy. apply list_elem_of_filter in Hy as [Heq Hy].
      by exists y.
  - intros (t & Ht & Hj). exists t. split; [|done].
    destruct Hj as [[-> Hall]|(y & Hy & Heq & ->)].
    + destruct (filter _ yest) as [|y0 ys] eqn:Hf; [by left|].
      assert (Hy0 : y0 ∈ filter (λ y, StatesApi.state y = StatesApi.state t)
                      yest) by (rewrite Hf; by left).
      apply list_elem_of_filter in Hy0 as [Heq Hy0].
      rewrite Forall_forall in Hall. by destruct (Hall y0 Hy0).
    + assert (Hyf : y ∈ filter (λ y, StatesApi.state y = StatesApi.state t)
                      yest) by (by apply list_elem_of_filter).
      destruct (filter _ yest) as [|y0 ys]; [by apply elem_of_nil in Hyf|].
      apply list_elem_of_fmap. by exists y.
Qed.

Lemma elem_of_rows row today yest :
  row ∈ rows today yest ↔
  ∃ j, j ∈ merge_left today yest
       ∧ row = finish (cases_type today yest) (deaths_type today yest) j
       ∧ is_Some (USPS !! state j).
Proof.
  unfold rows. rewrite list_elem_of_filter, list_elem_of_fmap. split.
  - intros [Hc (j & -> & Hj)]. by exists j.
  - intros (j & Hj & -> & Hc). split; [done|]. by exists j.
Qed.


End SnapshotFacts.

(** ** The snapshot fetcher: deltas, region codes, join and failure *)

Module SnapshotSpec.
Import Snapshot SnapshotProps SnapshotRuns SnapshotFacts.

(** ** Scenarios 1 to 3 of the specification *)

Example scenario_1 :
  deltas (run (fetch_states_snapshot
            (serve [obj "Texas" 100 5] [obj "Texas" 80 5])))
  = Some [("Texas", 20, 0)].
Proof. vm_compute. reflexivity. Qed.

Example scenario_2 :
  deltas (run (fetch_states_snapshot
            (serve [obj "Texas" 100 5] [obj "Texas" 120 5])))
  = Some [("Texas", 0, 0)].
Proof. vm_compute. reflexivity. Qed.

Example scenario_3 :
  deltas (run (fetch_states_snapshot
            (serve [obj "Atlantis" 100 5; obj "Ohio" 7 1]
                   [obj "Texas" 120 5])))
  = Some [("Ohio", 0, 0)].
Proof. vm_compute. reflexivity. Qed.

Example requests_made :
  (run (fetch_states_snapshot (serve [obj "Ohio" 7 1] [obj "Ohio" 7 1]))).2
  = [url_today; url_yest].
Proof. vm_compute. reflexivity. Qed.

Example revised_deltas :
  (λ r : Row, (state r, todayCases r, todayDeaths r)) <$> revised_frame
  = [("Texas", 0, 1); ("Ohio", 0, 1); ("Utah", 0, 0)].
Proof. vm_compute. reflexivity. Qed.

Example revised_run :
  fetch_states_snapshot revised []
  = (inr revised_frame, [url_today; url_yest]).
Proof. vm_compute. reflexivity. Qed.

(** ** Counts beyond 2^53 *)

(** In a column without a null the difference is that of [int64], and
    exact. *)
Example int64_delta :
  deltas (run (fetch_states_snapshot
            (serve [obj "Texas" 9007199254740993 0] [obj "Texas" 0 0])))
  = Some [("Texas", 9007199254740993, 0)].
Proof. vm_compute. reflexivity. Qed.

(** Next to a null the column is [float64], and the difference with
    2^53 + 1 is rounded to 2^53. *)
Example float64_delta :
  deltas (run (fetch_states_snapshot above_2_53))
  = Some [("Texas", 9007199254740992, 0); ("Ohio", 0, 0)].
Proof. vm_compute. reflexivity. Qed.

(** So it is next to a region without a prior row. *)
Example float64_delta_unmatched :
  deltas (run (fetch_states_snapshot
            (serve [obj "Texas" 9007199254740993 0; obj "Utah" 30 1]
                   [obj "Texas" 0 0])))
  = Some [("Texas", 9007199254740992, 0); ("Utah", 0, 0)].
Proof. vm_compute. reflexivity. Qed.

(** A count of 2^63 makes a [uint64] column; its difference with an
    [int64] column is [float64], and the cast of 2^63 overflows. *)
Example uint64_delta :
  deltas (run (fetch_states_snapshot
            (serve [obj "Texas" 9223372036854775808 0] [obj "Texas" 1 0])))
  = Some [("Texas", 0, 0)].
Proof. vm_compute. reflexivity. Qed.

(** ** C1 *)

(** C1, as amended. In every row of the frame [fetch_states_snapshot]
    returns, [todayCases] is not negative, also when the current count
    is below the prior one; it is 0 when [cases_today] or [cases_yest]
    is missing; and it is [max 0 (cases_today - cases_yest)] when both
    counts are present and from 0 to 2^53.  [todayDeaths] likewise from
    [deaths_today] and [deaths_yest]. *)
Theorem deltas_clipped up log out log' :
  fetch_states_snapshot up log = (inr out, log') →
  Forall (λ row : Row,
            delta_rule (cases_today row) (cases_yest row) (todayCases row)
            ∧ delta_rule (deaths_today row) (deaths_yest row)
                (todayDeaths row)) out.
Proof.
  intros Hrun.
  apply fetch_states_snapshot_inr in Hrun as (today & yest & _ & _ & -> & _).
  apply Forall_forall. intros row Hrow.
  apply elem_of_rows in Hrow as (j & _ & -> & _).
  assert (Hrule : ∀ dt current prior,
            delta_rule current prior (delta dt current prior)).
  { intros dt current prior. unfold delta_rule. split_and!.
    - apply delta_nonneg.
    - intros [-> | ->]; [apply delta_None_l|apply delta_None_r].
    - intros c p -> ->. apply delta_exact. }
  split; apply Hrule.
Qed.

Lemma deltas_clipped_witness :
  Forall (λ row : Row,
            delta_rule (cases_today row) (cases_yest row) (todayCases row)
            ∧ delta_rule (deaths_today row) (deaths_yest row)
                (todayDeaths row)) revised_frame.
Proof.
  apply (deltas_clipped revised [] revised_frame [url_today; url_yest]).
  vm_compute. reflexivity.
Defined.

(** C1 as stated fails: Texas has 2^63 - 1 cases after none, in a
    column that holds a null and so is [float64]; both counts are
    present and the current one is far above the prior one, and
    [todayCases] is 0: the difference is 2^63 in [float64], which the
    cast to [int64] turns into -2^63 and the clip into 0. *)
Lemma delta_lost_near_2_63 :
  ∃ (out : list Row) (row : Row),
    (fetch_states_snapshot near_2_63 []).1 = inr out
    ∧ row ∈ out
    ∧ cases_today row = Some 9223372036854775807
    ∧ cases_yest row = Some 0
    ∧ todayCases row = 0
    ∧ todayCases row ≠ Z.max 0 (9223372036854775807 - 0).
Proof.
  eexists _, _. split_and!.
  - vm_compute. reflexivity.
  - apply list_elem_of_here.
  - reflexivity.
  - reflexivity.
  - reflexivity.
  - vm_compute. discriminate.
Qed.

(** ** C3 *)

(** C3. When [fetch_states_snapshot] returns, a name with no entry in
    [USPS] (so the name of any current-period row without one) has no
    row in the frame, and each row of the frame carries the code [USPS]
    gives its name. *)
Theorem unmapped_rows_dropped up log out log' name :
  fetch_states_snapshot up log = (inr out, log') →
  USPS !! name = None →
  Forall (λ row : Row, state row ≠ name) out
  ∧ Forall (λ row : Row,
              ∃ code, state_code row = Some code
                      ∧ USPS !! state row = Some code) out.
Proof.
  intros Hrun Hnone.
  apply fetch_states_snapshot_inr in Hrun as (today & yest & _ & _ & -> & _).
  assert (Hcode : Forall (λ row : Row,
            ∃ code, state_code row = Some code
                    ∧ USPS !! state row = Some code) (rows today yest)).
  { apply Forall_forall. intros row Hrow.
    apply elem_of_rows in Hrow as (j & _ & -> & [code Hc]).
    by exists code. }
  split; [|exact Hcode].
  eapply Forall_impl; [exact Hcode|].
  intros row (code & _ & Hc) Heq. congruence.
Qed.

Lemma unmapped_rows_dropped_witness :
  Forall (λ row : Row, state row ≠ "Guam") revised_frame
  ∧ Forall (λ row : Row,
              ∃ code, state_code row = Some code
                      ∧ USPS !! state row = Some code) revised_frame.
Proof.
  apply (unmapped_rows_dropped revised [] revised_frame
           [url_today; url_yest] "Guam").
  - vm_compute. reflexivity.
  - vm_compute. reflexivity.
Defined.

(** ** C4 *)




(** ** C5 *)

(** C5, as amended. If either retrieval fails, with no response or with
    a status from 400 to 599, the call raises; and when the call returns
    a frame, both retrievals were accepted and the frame is the whole
    frame of the two tables. *)
Theorem snapshot_all_or_nothing up log :
  (failed up url_today ∨ failed up url_yest →
   ∃ e, (fetch_states_snapshot up log).1 = inl e)
  ∧ (∀ out, (fetch_states_snapshot up log).1 = inr out →
       ∃ today yest,
         accepted up url_today today ∧ accepted up url_yest yest
         ∧ out = rows today yest).
Proof.
  assert (Hret : ∀ out, (fetch_states_snapshot up log).1 = inr out →
       ∃ today yest,
         accepted up url_today today ∧ accepted up url_yest yest
         ∧ out = rows today yest).
  { intros out Hout.
    destruct (fetch_states_snapshot up log) as [res log'] eqn:Hrun.
    simpl in Hout. subst res.
    apply fetch_states_snapshot_inr in Hrun
      as (today & yest & Ht & Hy & -> & _).
    by exists today, yest. }
  split; [|exact Hret].
  intros Hfail.
  destruct (fetch_states_snapshot up log).1 as [e|out] eqn:Hres;
    [by exists e|].
  destruct (Hret out eq_refl)
    as (today & yest & (r1 & Hr1 & Hs1 & _) & (r2 & Hr2 & Hs2 & _) & _).
  unfold failed in Hfail. rewrite Hr1, Hr2 in Hfail. tauto.
Qed.

Lemma snapshot_all_or_nothing_witness :
  ∃ e, (fetch_states_snapshot unavailable []).1 = inl e.
Proof.
  apply (proj1 (snapshot_all_or_nothing unavailable [])).
  left. unfold failed. simpl. lia.
Defined.

(** C5 as stated fails: a retrieval with a status outside 200..299 does
    not make the call raise. *)
Lemma snapshot_returns_on_status_300 :
  failed_non_2xx multiple_choices url_today
  ∧ (fetch_states_snapshot multiple_choices []).1 = inr revised_frame.
Proof.
  split.
  - unfold failed_non_2xx. simpl. lia.
  - vm_compute. reflexivity.
Qed.

End SnapshotSpec.

(** ** The time-series fetchers: their frame *)

Module TimeSeriesFacts.
Import TimeSeries TimeSeriesProps.

#[global] Instance date_le_total : Total date_le.
Proof. intros [|x] [|y]; simpl; auto. lia. Qed.

#[global] Instance date_le_trans : Transitive date_le.
Proof. intros [|x] [|y] [|z]; simpl; auto; try tauto. lia. Qed.

#[global] Instance by_date_total : Total by_date.
Proof. intros a b. apply date_le_total. Qed.

#[global] Instance by_date_trans : Transitive by_date.
Proof. intros a b c. apply date_le_trans. Qed.

Lemma new_case_exact prev c :
  exact_count prev → exact_count c → new_case prev c = Z.max 0 (c - prev).
Proof.
  unfold exact_count, new_case. intros Hp Hc.
  rewrite (f64_exact c), (f64_exact prev) by lia.
  rewrite f64_exact by lia. apply to_int64_exact. lia.
Qed.

Lemma clip_fillna_diff prev tl :
  pd.astype_int pd.float64 (pd.clip 0 (default 0
    <$> zip_with (pd.sub_cell pd.float64) (Some <$> tl) (Some <$> prev :: tl)))
  = clipped_diffs prev tl.
Proof.
  revert prev. induction tl as [|c tl IH]; intros prev; [done|].
  cbn [clipped_diffs]. rewrite <- (IH c). reflexivity.
Qed.

Lemma new_cases_column_cons c tl :
  new_cases_column (c :: tl) = 0 :: clipped_diffs c tl.
Proof.
  unfold new_cases_column, pd.diff, pd.fillna, pd.series.
  cbv zeta. cbn [pd.values pd.dtype_of].
  rewrite fmap_cons, <- clip_fillna_diff. reflexivity.
Qed.

Lemma length_clipped_diffs prev cs : length (clipped_diffs prev cs) = length cs.
Proof.
  revert prev. induction cs as [|c cs IH]; intros prev; [done|].
  simpl. by rewrite IH.
Qed.

Lemma length_new_cases_column cs : length (new_cases_column cs) = length cs.
Proof.
  destruct cs as [|c cs]; [done|].
  rewrite new_cases_column_cons. simpl. by rewrite length_clipped_diffs.
Qed.

Lemma frame_cons d df :
  frame (d :: df) = row_of d 0 :: rows_after (NytApi.cases (point d)) df.
Proof.
  unfold frame, rows_after. rewrite !fmap_cons, new_cases_column_cons.
  reflexivity.
Qed.

Lemma rows_after_cons prev d df :
  rows_after prev (d :: df)
  = row_of d (new_case prev (NytApi.cases (point d)))
    :: rows_after (NytApi.cases (point d)) df.
Proof. reflexivity. Qed.



Lemma rows_after_columns prev df :
  (λ r, (date r, cases r)) <$> rows_after prev df
  = (λ d, (parsed d, NytApi.cases (point d))) <$> df.
Proof.
  revert prev. induction df as [|d df IH]; intros prev; [done|].
  rewrite rows_after_cons, !fmap_cons, IH. reflexivity.
Qed.

Lemma frame_columns df :
  (λ r, (date r, cases r)) <$> frame df
  = (λ d, (parsed d, NytApi.cases (point d))) <$> df.
Proof.
  destruct df as [|d df]; [done|].
  rewrite frame_cons, !fmap_cons, rows_after_columns. reflexivity.
Qed.

Lemma frame_dates df : date <$> frame df = parsed <$> df.
Proof.
  pose proof (f_equal (fmap fst) (frame_columns df)) as Hc.
  rewrite <- !list_fmap_compose in Hc. exact Hc.
Qed.

Lemma frame_cases df : cases <$> frame df = NytApi.cases <$> (point <$> df).
Proof.
  pose proof (f_equal (fmap snd) (frame_columns df)) as Hc.
  rewrite <- !list_fmap_compose in Hc. rewrite <- list_fmap_compose.
  exact Hc.
Qed.

(** The [new_cases] column of a returned frame is the column computed
    from its own [cases] column, in the order of the frame. *)
Lemma frame_new_cases df :
  new_cases <$> frame df = new_cases_column (cases <$> frame df).
Proof.
  rewrite frame_cases. unfold frame.
  pose proof (length_new_cases_column (NytApi.cases <$> (point <$> df)))
    as Hlen.
  rewrite !length_fmap in Hlen. revert Hlen.
  generalize (new_cases_column (NytApi.cases <$> (point <$> df))).
  induction df as [|d df IH]; intros [|n col] Hlen; try done.
  simpl. f_equal. apply IH. by injection Hlen.
Qed.





(** The counts of a returned frame are those of the sorted frame. *)
Lemma frame_exact df :
  Forall (λ r, exact_count (cases r)) (frame df) →
  Forall (λ d, exact_count (NytApi.cases (point d))) df.
Proof.
  intros Hout.
  assert (Hcol : Forall exact_count (cases <$> frame df))
    by (by apply Forall_fmap).
  rewrite frame_cases, <- list_fmap_compose in Hcol.
  exact (proj1 (Forall_fmap (NytApi.cases ∘ point) exact_count df) Hcol).
Qed.



Lemma dated_columns (dates : list datetime) (points : list NytApi.row) :
  (λ d, (parsed d, NytApi.cases (point d)))
    <$> zip_with Build_Dated dates points
  = zip dates (NytApi.cases <$> points).
Proof.
  revert points. induction dates as [|t dates IH]; intros [|p points];
    [done..|].
  rewrite fmap_cons. simpl. by rewrite IH.
Qed.

Section Fetchers.
Variable to_datetime : list string → string + list datetime.

Lemma fetch_national_timeseries_run up days log :
  fetch_national_timeseries to_datetime up days log
  = (after_get to_datetime (up (national_url days)),
     (log ++ [national_url days])%list).
Proof.
  unfold fetch_national_timeseries, after_get, mbind, M_bind,
    requests_get, raise_for_status, json, getitem_date, pd_to_datetime,
    setitem_date.
  destruct (up (national_url days)) as [r|]; [|done].
  case_bool_decide; [done|]. simpl.
  destruct (body r) as [[rows|[|p rows]]|]; try done. simpl.
  destruct (to_datetime _) as [text|dates]; [done|]. simpl.
  case_decide; done.
Qed.

Lemma fetch_state_timeseries_run up state_name days log :
  fetch_state_timeseries to_datetime up state_name days log
  = (after_get to_datetime (up (state_url state_name days)),
     (log ++ [state_url state_name days])%list).
Proof.
  unfold fetch_state_timeseries, after_get, mbind, M_bind,
    requests_get, raise_for_status, json, getitem_date, pd_to_datetime,
    setitem_date.
  destruct (up (state_url state_name days)) as [r|]; [|done].
  case_bool_decide; [done|]. simpl.
  destruct (body r) as [[rows|[|p rows]]|]; try done. simpl.
  destruct (to_datetime _) as [text|dates]; [done|]. simpl.
  case_decide; done.
Qed.

(** A returned frame is the frame of the sorted, parsed payload. *)
Lemma after_get_inr o out :
  after_get to_datetime o = inr out →
  ∃ r points dates,
    o = Some r ∧ ¬ (400 ≤ status_code r < 600)
    ∧ body r = Some (Series points) ∧ points ≠ []
    ∧ to_datetime (NytApi.date <$> points) = inr dates
    ∧ length dates = length points
    ∧ out = frame (sort_values (zip_with Build_Dated dates points)).
Proof.
  unfold after_get. destruct o as [r|]; [|done].
  case_bool_decide as Hs; [done|].
  destruct (body r) as [[rows|[|p rows]]|] eqn:Hb; try done.
  destruct (to_datetime _) as [text|dates] eqn:Hd; [done|].
  case_decide as Hlen; [|done]. intros [= <-].
  by exists r, (p :: rows), dates.
Qed.

Lemma after_get_accepted r points dates :
  ¬ (400 ≤ status_code r < 600) →
  body r = Some (Series points) → points ≠ [] →
  to_datetime (NytApi.date <$> points) = inr dates →
  length dates = length points →
  after_get to_datetime (Some r)
  = inr (frame (sort_values (zip_with Build_Dated dates points))).
Proof.
  intros Hs Hb Hne Hd Hlen. unfold after_get.
  rewrite bool_decide_eq_false_2, Hb by done.
  destruct points as [|p rows]; [done|].
  rewrite Hd. by rewrite decide_True.
Qed.

Lemma returned_inr up state_name days log out :
  returned to_datetime up state_name days log out →
  ∃ r points dates,
    ¬ (400 ≤ status_code r < 600)
    ∧ body r = Some (Series points) ∧ points ≠ []
    ∧ to_datetime (NytApi.date <$> points) = inr dates
    ∧ length dates = length points
    ∧ out = frame (sort_values (zip_with Build_Dated dates points)).
Proof.
  unfold returned.
  rewrite fetch_national_timeseries_run, fetch_state_timeseries_run.
  simpl. intros [Hout|Hout];
    apply after_get_inr in Hout
      as (r & points & dates & _ & Hs & Hb & Hne & Hd & Hlen & ->);
    by exists r, points, dates.
Qed.

(** A returned frame comes from the response to one of the two URLs. *)
Lemma returned_from up state_name days log out :
  returned to_datetime up state_name days log out →
  ∃ r points dates,
    (up (national_url days) = Some r
     ∨ up (state_url state_name days) = Some r)
    ∧ body r = Some (Series points)
    ∧ to_datetime (NytApi.date <$> points) = inr dates
    ∧ length dates = length points
    ∧ out = frame (sort_values (zip_with Build_Dated dates points)).
Proof.
  unfold returned.
  rewrite fetch_national_timeseries_run, fetch_state_timeseries_run.
  simpl. intros [Hout|Hout];
    apply after_get_inr in Hout
      as (r & points & dates & Hr & _ & Hb & _ & Hd & Hlen & ->);
    exists r, points, dates; split_and!; auto.
Qed.

End Fetchers.

End TimeSeriesFacts.

(** ** The time-series fetchers: differences, order, length, equivalence *)

Module TimeSeriesSpec.
Import TimeSeries TimeSeriesProps TimeSeriesRuns TimeSeriesFacts.

(** ** Scenario 4 of the specification, and other runs *)

Example epoch : IsoDate.parse "1970-01-02" = inr (Timestamp 86400000000000).
Proof. vm_compute. reflexivity. Qed.

Example scenario_4 :
  column new_cases (run (fetch_national_timeseries IsoDate.to_datetime
    (serve (national_url 180)
       [pt "2020-03-01" 10; pt "2020-03-02" 10; pt "2020-03-03" 25]) 180))
  = Some [0; 0; 15].
Proof. vm_compute. reflexivity. Qed.

Example unsorted_source :
  column (λ r, (cases r, new_cases r))
    (run (fetch_state_timeseries IsoDate.to_datetime
      (serve (state_url "Ohio" 60)
         [pt "2020-03-03" 25; pt "2020-03-01" 10; pt "2020-03-02" 30])
      "Ohio" 60))
  = Some [(10, 0); (30, 20); (25, 0)].
Proof. vm_compute. reflexivity. Qed.

Example state_url_ohio :
  state_url "Ohio" 365
  = "https://disease.sh/v3/covid-19/nyt/states/Ohio?lastdays=365".
Proof. vm_compute. reflexivity. Qed.

Example empty_history :
  (run (fetch_state_timeseries IsoDate.to_datetime
          (serve (state_url "Ohio" 365) []) "Ohio" 365)).1
  = inl (KeyError ["date"]).
Proof. vm_compute. reflexivity. Qed.

Example ohio_new_cases :
  (λ r, (cases r, new_cases r)) <$> ohio_frame = [(10, 0); (30, 20); (25, 0)].
Proof. vm_compute. reflexivity. Qed.

Section Spec.
Variable to_datetime : list string → string + list datetime.

(** ** C2 *)


(** ** C7 *)

(** C7. Whatever the order of the points in the payload, the rows of a
    frame returned by either fetcher are the points of the payload, with
    their parsed dates, in ascending order of date: each date is at most
    every date after it, in the order of [sort_values], where [NaT]
    comes last.  The sort comes before the first difference: the
    [new_cases] column is the one computed from the [cases] column in
    the order of the returned frame. *)
Theorem series_sorted_by_date up state_name days log out :
  returned to_datetime up state_name days log out →
  StronglySorted date_le (date <$> out)
  ∧ new_cases <$> out = new_cases_column (cases <$> out)
  ∧ ∃ r points dates,
      (up (national_url days) = Some r
       ∨ up (state_url state_name days) = Some r)
      ∧ body r = Some (Series points)
      ∧ to_datetime (NytApi.date <$> points) = inr dates
      ∧ (λ row, (date row, cases row)) <$> out
        ≡ₚ zip dates (NytApi.cases <$> points).
Proof.
  intros Hret.
  apply returned_from in Hret
    as (r & points & dates & Hr & Hb & Hd & Hlen & ->).
  split_and!.
  - rewrite frame_dates.
    apply (StronglySorted_fmap parsed by_date date_le); [done|].
    apply StronglySorted_merge_sort; apply _.
  - apply frame_new_cases.
  - exists r, points, dates. split_and!; [done..|].
    rewrite frame_columns. unfold sort_values.
    by rewrite merge_sort_Permutation, dated_columns.
Qed.

(** ** C8 *)


(** ** C10 *)

(** C10. The two fetchers differ only in the URL they request: when
    the upstream answers both URLs alike, both return the same frame
    or raise the same exception, and each has requested its own URL
    and nothing else. *)
Theorem fetchers_agree up state_name days days' log :
  up (national_url days) = up (state_url state_name days') →
  (fetch_national_timeseries to_datetime up days log).1
  = (fetch_state_timeseries to_datetime up state_name days' log).1
  ∧ (fetch_national_timeseries to_datetime up days log).2
    = (log ++ [national_url days])%list
  ∧ (fetch_state_timeseries to_datetime up state_name days' log).2
    = (log ++ [state_url state_name days'])%list.
Proof.
  intros Hsame.
  rewrite fetch_national_timeseries_run, fetch_state_timeseries_run.
  simpl. by rewrite Hsame.
Qed.

End Spec.

(** ** Concrete runs *)



Lemma series_sorted_by_date_witness :
  StronglySorted date_le (date <$> ohio_frame)
  ∧ new_cases <$> ohio_frame = new_cases_column (cases <$> ohio_frame)
  ∧ ∃ r points dates,
      (ohio (national_url 365) = Some r
       ∨ ohio (state_url "Ohio" 365) = Some r)
      ∧ body r = Some (Series points)
      ∧ IsoDate.to_datetime (NytApi.date <$> points) = inr dates
      ∧ (λ row, (date row, cases row)) <$> ohio_frame
        ≡ₚ zip dates (NytApi.cases <$> points).
Proof.
  apply (series_sorted_by_date IsoDate.to_datetime ohio "Ohio" 365 []).
  right. vm_compute. reflexivity.
Defined.


Lemma fetchers_agree_witness :
  (fetch_national_timeseries IsoDate.to_datetime ohio 180 []).1
  = (fetch_state_timeseries IsoDate.to_datetime ohio "Ohio" 365 []).1
  ∧ (fetch_national_timeseries IsoDate.to_datetime ohio 180 []).2
    = ([] ++ [national_url 180])%list
  ∧ (fetch_state_timeseries IsoDate.to_datetime ohio "Ohio" 365 []).2
    = ([] ++ [state_url "Ohio" 365])%list.
Proof.
  apply (fetchers_agree IsoDate.to_datetime ohio "Ohio" 180 365 []).
  vm_compute. reflexivity.
Defined.


End TimeSeriesSpec.

(** ** The result cache *)

Module CacheSpec.
Import Cache CacheProps.

Section CacheData.
Context {K : Type} `{Countable K} {R : Type}.
Variable ttl : Z.
Variable f : Upstream → K → M R.

Lemma cache_data_hit up now args store log e :
  store !! args = Some e → now - created_at e < ttl →
  cache_data ttl f up now args store log = (inr (value e), store, log).
Proof.
  intros He Hnow. unfold cache_data, valid. rewrite He.
  by rewrite bool_decide_eq_true_2.
Qed.

Lemma cache_data_stale up now args store log :
  stale ttl now args store →
  cache_data ttl f up now args store log = miss f up now args store log.
Proof.
  unfold stale, cache_data, valid. destruct (store !! args) as [e|];
    [|done].
  intros Hexp. rewrite bool_decide_eq_false_2; [done|lia].
Qed.

Lemma miss_result up now args store log :
  (miss f up now args store log).1.1 = (f up args log).1
  ∧ (miss f up now args store log).2 = (f up args log).2.
Proof. unfold miss. by destruct (f up args log) as [[e|v] log']. Qed.

Lemma miss_stores up now args store log v log' :
  f up args log = (inr v, log') →
  miss f up now args store log
  = (inr v, <[args := {| value := v; created_at := now |}]> store, log').
Proof. unfold miss. by intros ->. Qed.

Lemma cache_data_memoized :
  contacts_upstream f → memoized ttl f (cache_data ttl f).
Proof.
  intros Hcontact. split_and!.
  - intros up now args store log v log' Hstale Hf.
    rewrite cache_data_stale by done. by apply miss_stores.
  - intros up now args store log v t0 He Hnow.
    by rewrite (cache_data_hit _ _ _ _ _ _ He).
  - intros up now args store log v t0 He Hexp.
    rewrite cache_data_stale by (unfold stale; by rewrite He).
    destruct (miss_result up now args store log) as [-> ->].
    split; [done|]. apply Hcontact.
  - intros up up' t0 t1 args store log v log' Hstale Hf Ht1.
    rewrite cache_data_stale by done. rewrite (miss_stores _ _ _ _ _ _ _ Hf).
    apply (cache_data_hit _ _ _ _ _ {| value := v; created_at := t0 |});
      [apply lookup_insert_eq|done].
Qed.

End CacheData.

Lemma fetch_states_snapshot_contacts :
  contacts_upstream (λ up (_ : ()), Snapshot.fetch_states_snapshot up).
Proof.
  intros up _ log.
  unfold Snapshot.fetch_states_snapshot, mbind, M_bind, requests_get,
    raise_for_status, json, Snapshot.select_keep_cols, raise, mret, M_ret.
  repeat (case_match; simplify_eq/=);
    first [ by exists [Snapshot.url_today]
          | exists [Snapshot.url_today; Snapshot.url_yest];
            by rewrite <- (assoc_L (++)) ].
Qed.

Lemma fetch_national_timeseries_contacts to_datetime :
  contacts_upstream (λ up (days : Z),
    TimeSeries.fetch_national_timeseries to_datetime up days).
Proof.
  intros up days log. exists [TimeSeries.national_url days].
  by rewrite TimeSeriesFacts.fetch_national_timeseries_run.
Qed.

Lemma fetch_state_timeseries_contacts to_datetime :
  contacts_upstream (λ up (args : string * Z),
    TimeSeries.fetch_state_timeseries to_datetime up args.1 args.2).
Proof.
  intros up args log. exists [TimeSeries.state_url args.1 args.2].
  by rewrite TimeSeriesFacts.fetch_state_timeseries_run.
Qed.

(** ** C6 *)

(** C6. The time-to-live of the three decorators is 1800 seconds, and
    each of the three fetch functions is memoized per argument tuple
    with it: a call that finds no valid entry performs the retrieval
    and stores a returned result with its time; a call less than 1800
    seconds after that time returns the stored result, whatever the
    upstream has become, and requests nothing; a call 1800 seconds or
    more after it performs the retrieval again. *)
Theorem cache_ttl_1800 to_datetime :
  ttl = 1800
  ∧ memoized 1800 (λ up (_ : ()), Snapshot.fetch_states_snapshot up)
      Cache.fetch_states_snapshot
  ∧ memoized 1800
      (λ up (days : Z),
         TimeSeries.fetch_national_timeseries to_datetime up days)
      (Cache.fetch_national_timeseries to_datetime)
  ∧ memoized 1800
      (λ up (args : string * Z),
         TimeSeries.fetch_state_timeseries to_datetime up args.1 args.2)
      (Cache.fetch_state_timeseries to_datetime).
Proof.
  split_and!.
  - reflexivity.
  - exact (cache_data_memoized ttl _ fetch_states_snapshot_contacts).
  - exact (cache_data_memoized ttl _
             (fetch_national_timeseries_contacts to_datetime)).
  - exact (cache_data_memoized ttl _
             (fetch_state_timeseries_contacts to_datetime)).
Qed.

(** At 1799 seconds the stored frame is returned although the upstream
    now answers 503, and nothing is requested. *)
Lemma cache_ttl_1800_witness :
  Cache.fetch_states_snapshot SnapshotRuns.unavailable 1799 () warm []
  = (inr SnapshotRuns.revised_frame, warm, []).
Proof.
  apply (proj1 (proj2 (proj1 (proj2 (cache_ttl_1800 IsoDate.to_datetime))))
           SnapshotRuns.unavailable 1799 () warm []
           SnapshotRuns.revised_frame 0).
  - vm_compute. reflexivity.
  - lia.
Defined.

(** A call at 0 on a working upstream, then calls at 1799 and at 1800
    on an upstream that answers 503. *)
Example three_calls :
  let '(r0, s0, l0) :=
    Cache.fetch_states_snapshot SnapshotRuns.revised 0 () ∅ [] in
  let '(r1, s1, l1) :=
    Cache.fetch_states_snapshot SnapshotRuns.unavailable 1799 () s0 l0 in
  let '(r2, s2, l2) :=
    Cache.fetch_states_snapshot SnapshotRuns.unavailable 1800 () s1 l1 in
  (r0, l0) = (inr SnapshotRuns.revised_frame,
              [Snapshot.url_today; Snapshot.url_yest])
  ∧ (r1, l1) = (r0, l0)
  ∧ (r2, l2) = (inl (HTTPError 503),
                [Snapshot.url_today; Snapshot.url_yest; Snapshot.url_today]).
Proof. vm_compute. done. Qed.

End CacheSpec.


(** * Further properties of the code *)

(** ** The snapshot fetcher: requests, failures and rows *)

Module SnapshotMore.
Import Snapshot SnapshotProps SnapshotRuns SnapshotFacts.
Import RetrievalProps SnapshotMoreRuns.

Ltac run_snapshot :=
  unfold fetch_states_snapshot, mbind, M_bind, requests_get,
    raise_for_status, json, select_keep_cols, raise, mret, M_ret.

(** X1. A first retrieval that ends in an exception ends the call with
    that exception, and the prior-period URL is never requested. *)
Theorem first_failure_skips_prior_request up log e :
  retrieval_error (up url_today) = Some e →
  fetch_states_snapshot up log = (inl e, (log ++ [url_today])%list).
Proof.
  unfold retrieval_error. run_snapshot.
  destruct (up url_today) as [r|]; [|by intros [= <-]].
  case_bool_decide; [by intros [= <-]|].
  destruct (body r); [done|]. by intros [= <-].
Qed.

Lemma first_failure_skips_prior_request_witness :
  fetch_states_snapshot unavailable []
  = (inl (HTTPError 503), ([] ++ [url_today])%list).
Proof.
  apply (first_failure_skips_prior_request unavailable [] (HTTPError 503)).
  vm_compute. reflexivity.
Defined.

(** X2. When the first retrieval decodes, a prior-period retrieval that
    ends in an exception ends the call with that exception, after both
    URLs were requested, whatever the first table holds. *)
Theorem prior_failure_fails_call up log e :
  retrieval_error (up url_today) = None →
  retrieval_error (up url_yest) = Some e →
  fetch_states_snapshot up log
  = (inl e, (log ++ [url_today; url_yest])%list).
Proof.
  unfold retrieval_error. run_snapshot.
  destruct (up url_today) as [r1|]; [|done].
  case_bool_decide; [done|].
  destruct (body r1); [|done]. intros _.
  rewrite <- (assoc_L (++)). simpl.
  destruct (up url_yest) as [r2|]; [|by intros [= <-]].
  case_bool_decide; [by intros [= <-]|].
  destruct (body r2); [done|]. by intros [= <-].
Qed.

Lemma prior_failure_fails_call_witness :
  fetch_states_snapshot prior_unavailable []
  = (inl (HTTPError 500), ([] ++ [url_today; url_yest])%list).
Proof.
  apply (prior_failure_fails_call prior_unavailable [] (HTTPError 500));
    vm_compute; reflexivity.
Defined.

(** X3. When both retrievals answer a table of state objects and one of
    the two tables is empty, the call raises [KeyError] on the columns it
    keeps, after both URLs were requested. *)
Theorem empty_table_raises_KeyError up log today yest :
  serves_states up url_today today → serves_states up url_yest yest →
  today = [] ∨ yest = [] →
  fetch_states_snapshot up log
  = (inl (KeyError keep_cols), (log ++ [url_today; url_yest])%list).
Proof.
  intros (r1 & Hr1 & Hs1 & Hb1) (r2 & Hr2 & Hs2 & Hb2) Hempty.
  run_snapshot. rewrite Hr1, bool_decide_eq_false_2, Hb1 by done.
  rewrite Hr2, bool_decide_eq_false_2, Hb2 by done.
  rewrite <- (assoc_L (++)). simpl.
  destruct today as [|t today]; [done|].
  destruct yest as [|y yest]; [done|]. by destruct Hempty.
Qed.

Lemma empty_table_raises_KeyError_witness :
  fetch_states_snapshot prior_empty []
  = (inl (KeyError keep_cols), ([] ++ [url_today; url_yest])%list).
Proof.
  apply (empty_table_raises_KeyError prior_empty [] today_rows []).
  - eexists. split_and!; [vm_compute; reflexivity|simpl; lia|reflexivity].
  - eexists. split_and!; [vm_compute; reflexivity|simpl; lia|reflexivity].
  - by right.
Defined.

Lemma filter_none {A} (P : A → Prop) `{∀ x, Decision (P x)} (l : list A) :
  Forall (λ y, ¬ P y) l → filter P l = [].
Proof.
  induction 1 as [|y l Hy _ IH]; [done|].
  by rewrite filter_cons, decide_False.
Qed.

(** A key occurs at most once in a column without repetition. *)
Lemma filter_key_NoDup {A} (f : A → string) (k : string) (l : list A) :
  NoDup (f <$> l) →
  filter (λ y, f y = k) l = [] ∨ ∃ y, filter (λ y, f y = k) l = [y].
Proof.
  induction l as [|a l IH]; [by left|].
  rewrite fmap_cons, NoDup_cons. intros [Hnotin Hnd].
  rewrite filter_cons. case_decide as Hk; [|by apply IH].
  right. exists a. f_equal. apply filter_none, Forall_forall.
  intros y Hy Heq. apply Hnotin. rewrite Hk, <- Heq.
  apply list_elem_of_fmap. by exists y.
Qed.

Lemma NoDup_fmap_eq {A B} (f : A → B) (l : list A) x y :
  NoDup (f <$> l) → x ∈ l → y ∈ l → f x = f y → x = y.
Proof.
  induction l as [|a l IH]; [by intros _ ?%elem_of_nil|].
  rewrite fmap_cons, NoDup_cons. intros [Hnotin Hnd].
  rewrite !elem_of_cons. intros [->|Hx] [->|Hy] Heq; [done|..|by apply IH].
  - destruct Hnotin. rewrite Heq. apply list_elem_of_fmap. by exists y.
  - destruct Hnotin. rewrite <- Heq. apply list_elem_of_fmap. by exists x.
Qed.

Lemma filter_finish tc td (j : Joined) :
  filter (λ r : Row, is_Some (state_code r)) [finish tc td j]
  = if decide (is_Some (USPS !! state j)) then [finish tc td j] else [].
Proof. rewrite filter_cons, filter_nil. unfold finish. reflexivity. Qed.

Lemma current_finish_unmatched tc td t :
  current (finish tc td (unmatched t)) = current_of t.
Proof. reflexivity. Qed.

Lemma current_finish_matched tc td t y :
  current (finish tc td (matched t y)) = current_of t.
Proof. reflexivity. Qed.

(** With prior names that do not repeat, the frame has one row for each
    current-period row whose name has a code, in the order of the
    source, with the current counts as they came, whatever the types of
    the difference columns are. *)
Lemma finish_current tc td today yest :
  NoDup (StatesApi.state <$> yest) →
  current <$> filter (λ r : Row, is_Some (state_code r))
                (finish tc td <$> merge_left today yest)
  = current_of
      <$> filter (λ t, is_Some (USPS !! StatesApi.state t)) today.
Proof.
  intros Hnd.
  induction today as [|t today IH]; [done|].
  unfold merge_left in *. rewrite bind_cons, fmap_app, filter_app, fmap_app.
  rewrite IH, filter_cons. clear IH.
  destruct (filter_key_NoDup StatesApi.state (StatesApi.state t) yest Hnd)
    as [->|[y ->]]; rewrite !list_fmap_singleton, filter_finish.
  - change (state (unmatched t)) with (StatesApi.state t).
    destruct (decide (is_Some (USPS !! StatesApi.state t))); [|done].
    by rewrite list_fmap_singleton, current_finish_unmatched.
  - change (state (matched t y)) with (StatesApi.state t).
    destruct (decide (is_Some (USPS !! StatesApi.state t))); [|done].
    by rewrite list_fmap_singleton, current_finish_matched.
Qed.

Lemma rows_current today yest :
  NoDup (StatesApi.state <$> yest) →
  current <$> rows today yest
  = current_of
      <$> filter (λ t, is_Some (USPS !! StatesApi.state t)) today.
Proof. apply finish_current. Qed.

Lemma rows_names today yest :
  NoDup (StatesApi.state <$> yest) →
  (λ row : Row, state row) <$> rows today yest
  = StatesApi.state
      <$> filter (λ t, is_Some (USPS !! StatesApi.state t)) today.
Proof.
  intros Hndy.
  pose proof (f_equal (fmap (λ c : string * option Z * option Z, c.1.1))
                (rows_current today yest Hndy)) as Hc.
  rewrite <- !list_fmap_compose in Hc. exact Hc.
Qed.

Lemma rows_names_NoDup today yest :
  NoDup (StatesApi.state <$> today) → NoDup (StatesApi.state <$> yest) →
  NoDup ((λ row : Row, state row) <$> rows today yest).
Proof.
  intros Hndt Hndy. rewrite rows_names by done.
  eapply sublist_NoDup; [exact Hndt|].
  apply fmap_sublist, sublist_filter.
Qed.

(** With names that repeat in neither table the frame has at most one
    row for each of the 51 names of the Region Code Table. *)
Lemma length_rows_le_51 today yest :
  NoDup (StatesApi.state <$> today) → NoDup (StatesApi.state <$> yest) →
  (length (rows today yest) ≤ 51)%nat.
Proof.
  intros Hndt Hndy.
  rewrite <- (length_fmap (λ row : Row, state row)).
  change 51%nat with (length (USPS_items.*1)).
  apply submseteq_length, NoDup_submseteq; [by apply rows_names_NoDup|].
  intros name Hname. rewrite rows_names in Hname by done.
  apply list_elem_of_fmap in Hname as (t & -> & Hin).
  apply list_elem_of_filter in Hin as [[code Hcode] _].
  apply RegionCodesFacts.USPS_lookup in Hcode.
  apply list_elem_of_fmap. by exists (StatesApi.state t, code).
Qed.

(** On counts that are null or from 0 to 2^53 the delta is the
    [safe_delta] of the specification, in every column type. *)
Lemma delta_safe_delta dt current prior :
  exact_or_null current → exact_or_null prior →
  delta dt current prior = safe_delta current prior.
Proof.
  destruct current as [c|], prior as [p|]; simpl; intros Hc Hp.
  - by apply delta_exact.
  - apply delta_None_r.
  - apply delta_None_l.
  - apply delta_None_l.
Qed.

Lemma delta_bounded dt current prior :
  exact_or_null current → exact_or_null prior →
  0 ≤ delta dt current prior ≤ 2 ^ 53.
Proof.
  intros Hc Hp. rewrite delta_safe_delta by done.
  destruct current as [c|], prior as [p|]; simpl in *;
    unfold exact_count in *; lia.
Qed.

(** With counts from 0 to 2^53 in both tables, so are the deltas. *)
Lemma rows_deltas_bounded today yest :
  exact_table today → exact_table yest →
  Forall (λ row : Row, 0 ≤ todayCases row ≤ 2 ^ 53
                       ∧ 0 ≤ todayDeaths row ≤ 2 ^ 53) (rows today yest).
Proof.
  unfold exact_table. rewrite !Forall_forall. intros Ht Hy row Hrow.
  apply elem_of_rows in Hrow as (j & Hj & -> & _).
  apply elem_of_merge_left in Hj
    as (t & Hin & [[-> _]|(y & Hyin & _ & ->)]).
  - destruct (Ht t Hin). split; by apply delta_bounded.
  - destruct (Ht t Hin), (Hy y Hyin). split; by apply delta_bounded.
Qed.



(** X5. When both retrievals answer the same table, whose names do not
    repeat, every returned row has no new case and no new death. *)
Theorem unchanged_source_no_new_cases up log table :
  accepted up url_today table → accepted up url_yest table →
  NoDup (StatesApi.state <$> table) →
  ∃ out,
    (fetch_states_snapshot up log).1 = inr out
    ∧ Forall (λ row : Row, todayCases row = 0 ∧ todayDeaths row = 0) out.
Proof.
  intros Ht Hy Hnd. exists (rows table table).
  rewrite (fetch_states_snapshot_accepted _ _ _ _ Ht Hy).
  split; [done|]. apply Forall_forall. intros row Hrow.
  apply elem_of_rows in Hrow as (j & Hj & -> & _).
  apply elem_of_merge_left in Hj
    as (t & Hin & [[-> _]|(y & Hyin & Heq & ->)]).
  - cbn [finish todayCases todayDeaths unmatched joined cases_yest
         deaths_yest].
    by rewrite !delta_None_r.
  - apply (NoDup_fmap_eq _ _ _ _ Hnd Hyin Hin) in Heq as ->.
    cbn [finish todayCases todayDeaths matched joined cases_today
         deaths_today cases_yest deaths_yest].
    by rewrite !delta_diag.
Qed.

Lemma unchanged_source_no_new_cases_witness :
  ∃ out,
    (fetch_states_snapshot unchanged []).1 = inr out
    ∧ Forall (λ row : Row, todayCases row = 0 ∧ todayDeaths row = 0) out.
Proof.
  apply (unchanged_source_no_new_cases unchanged [] today_rows).
  - eexists. split_and!; [vm_compute; reflexivity|simpl; lia|done..].
  - eexists. split_and!; [vm_compute; reflexivity|simpl; lia|done..].
  - apply (bool_decide_unpack _). vm_compute. reflexivity.
Defined.



End SnapshotMore.

(** ** The time-series fetchers: totals, delivery order and failures *)

Module TimeSeriesMore.
Import TimeSeries TimeSeriesProps TimeSeriesRuns TimeSeriesFacts.
Import RetrievalProps TimeSeriesMoreRuns.

Lemma final_count_cons prev r out :
  final_count prev (r :: out) = final_count (cases r) out.
Proof. unfold final_count. rewrite last_cons. by destruct (last out). Qed.

Lemma rows_after_sum_ge prev df :
  exact_count prev →
  Forall (λ d, exact_count (NytApi.cases (point d))) df →
  final_count prev (rows_after prev df) - prev
  ≤ total (new_cases <$> rows_after prev df).
Proof.
  intros Hprev Hdf. revert prev Hprev.
  induction Hdf as [|d df Hd _ IH]; intros prev Hprev.
  { unfold final_count. simpl. lia. }
  rewrite rows_after_cons, final_count_cons, fmap_cons.
  specialize (IH (NytApi.cases (point d)) Hd).
  cbn [total foldr new_cases cases row_of] in *.
  fold (total (new_cases <$> rows_after (NytApi.cases (point d)) df)).
  rewrite new_case_exact by done. lia.
Qed.

Lemma rows_after_sum_eq prev df :
  exact_count prev →
  Forall (λ d, exact_count (NytApi.cases (point d))) df →
  Sorted Z.le (prev :: (cases <$> rows_after prev df)) →
  total (new_cases <$> rows_after prev df)
  = final_count prev (rows_after prev df) - prev.
Proof.
  intros Hprev Hdf. revert prev Hprev.
  induction Hdf as [|d df Hd _ IH]; intros prev Hprev.
  { unfold final_count. simpl. lia. }
  rewrite rows_after_cons, final_count_cons, !fmap_cons.
  intros Hs. apply Sorted_inv in Hs as [Hs Hhd]. apply HdRel_inv in Hhd.
  specialize (IH (NytApi.cases (point d)) Hd Hs).
  cbn [total foldr new_cases cases row_of] in *.
  fold (total (new_cases <$> rows_after (NytApi.cases (point d)) df)).
  rewrite new_case_exact by done. lia.
Qed.

Lemma frame_ends df first final :
  head (frame df) = Some first → last (frame df) = Some final →
  ∃ d df', df = d :: df' ∧ cases first = NytApi.cases (point d)
    ∧ cases final
      = final_count (NytApi.cases (point d))
          (rows_after (NytApi.cases (point d)) df').
Proof.
  destruct df as [|d df']; [done|]. rewrite frame_cons.
  intros [= <-] Hlast. exists d, df'. split_and!; [done..|].
  unfold final_count. rewrite last_cons in Hlast.
  destruct (last (rows_after _ df')); by injection Hlast as <-.
Qed.

Section More.
Variable to_datetime : list string → string + list datetime.

(** X7. In a frame returned by either fetcher whose counts are from 0
    to 2^53, the new cases add up to at least the net increase of the
    count from the first date to the last. *)
Theorem new_cases_sum_at_least_net_increase up state_name days log out
    first final :
  returned to_datetime up state_name days log out →
  Forall (λ r, exact_count (cases r)) out →
  head out = Some first → last out = Some final →
  cases final - cases first ≤ total (new_cases <$> out).
Proof.
  intros Hret Hexact Hfirst Hfinal.
  apply returned_inr in Hret
    as (r & points & dates & _ & _ & _ & _ & _ & ->).
  apply frame_exact in Hexact.
  destruct (frame_ends _ _ _ Hfirst Hfinal) as (d & df' & Hdf & -> & ->).
  rewrite Hdf in Hexact |- *. apply Forall_cons in Hexact as [Hd Hexact].
  rewrite frame_cons, fmap_cons.
  pose proof (rows_after_sum_ge (NytApi.cases (point d)) df' Hd Hexact)
    as Hge.
  cbn [total foldr new_cases row_of].
  fold (total (new_cases <$> rows_after (NytApi.cases (point d)) df')).
  lia.
Qed.

(** X8. In a frame returned by either fetcher whose counts are from 0 to
    2^53 and never decrease from one date to the next, the new cases add
    up to exactly the increase of the count from the first date to the
    last. *)
Theorem new_cases_sum_is_net_increase up state_name days log out
    first final :
  returned to_datetime up state_name days log out →
  Forall (λ r, exact_count (cases r)) out →
  head out = Some first → last out = Some final →
  Sorted Z.le (cases <$> out) →
  total (new_cases <$> out) = cases final - cases first.
Proof.
  intros Hret Hexact Hfirst Hfinal Hsorted.
  apply returned_inr in Hret
    as (r & points & dates & _ & _ & _ & _ & _ & ->).
  apply frame_exact in Hexact.
  destruct (frame_ends _ _ _ Hfirst Hfinal) as (d & df' & Hdf & -> & ->).
  rewrite Hdf in Hexact, Hsorted |- *.
  apply Forall_cons in Hexact as [Hd Hexact].
  rewrite frame_cons, fmap_cons in *.
  pose proof (rows_after_sum_eq (NytApi.cases (point d)) df' Hd Hexact
                Hsorted) as Heq.
  cbn [total foldr new_cases row_of].
  fold (total (new_cases <$> rows_after (NytApi.cases (point d)) df')).
  lia.
Qed.

(** X9. The order of delivery does not matter: two payloads that hold
    the same points with the same parsed dates, none of them twice, in
    whatever order, give the same result. *)
Theorem delivery_order_irrelevant up1 up2 state_name days log
    points1 dates1 points2 dates2 :
  delivers to_datetime up1 (state_url state_name days) points1 dates1 →
  delivers to_datetime up2 (state_url state_name days) points2 dates2 →
  zip_with Build_Dated dates1 points1 ≡ₚ zip_with Build_Dated dates2 points2 →
  NoDup dates1 →
  (fetch_state_timeseries to_datetime up1 state_name days log).1
  = (fetch_state_timeseries to_datetime up2 state_name days log).1.
Proof.
  intros (r1 & Hr1 & Hs1 & Hb1 & Hd1 & Hl1) (r2 & Hr2 & Hs2 & Hb2 & Hd2 & Hl2)
    Hperm Hnd.
  rewrite !fetch_state_timeseries_run, Hr1, Hr2. cbn [fst].
  destruct points1 as [|p1 points1], points2 as [|p2 points2].
  - unfold after_get. by rewrite !bool_decide_eq_false_2, Hb1, Hb2 by done.
  - destruct dates1, dates2; try done. by apply Permutation_nil_cons in Hperm.
  - destruct dates1, dates2; try done.
    symmetry in Hperm. by apply Permutation_nil_cons in Hperm.
  - rewrite (after_get_accepted _ _ _ _ Hs1 Hb1 ltac:(done) Hd1 Hl1).
    rewrite (after_get_accepted _ _ _ _ Hs2 Hb2 ltac:(done) Hd2 Hl2).
    do 2 f_equal. unfold sort_values.
    set (l1 := zip_with Build_Dated dates1 (p1 :: points1)) in *.
    set (l2 := zip_with Build_Dated dates2 (p2 :: points2)) in *.
    assert (Hparsed : parsed <$> l1 = dates1).
    { unfold l1. clear -Hl1. revert Hl1. generalize (p1 :: points1).
      induction dates1 as [|t dates1 IH]; intros [|p ps] Hlen; try done.
      simpl. f_equal. apply IH. by injection Hlen. }
    apply (StronglySorted_unique_strong by_date).
    + intros x1 x2 Hx1 Hx2 H12 H21.
      rewrite merge_sort_Permutation in Hx1, Hx2. rewrite <- Hperm in Hx2.
      apply (SnapshotMore.NoDup_fmap_eq parsed l1);
        [by rewrite Hparsed|done..|].
      unfold by_date in H12, H21.
      destruct (parsed x1), (parsed x2); simpl in *; try done. f_equal. lia.
    + apply StronglySorted_merge_sort; apply _.
    + apply StronglySorted_merge_sort; apply _.
    + by rewrite !merge_sort_Permutation.
Qed.

(** X10. A retrieval of a state series that ends in an exception, such
    as the 404 of a region the source does not know, ends the call with
    that exception after its one request. *)
Theorem series_retrieval_error up state_name days log e :
  retrieval_error (up (state_url state_name days)) = Some e →
  fetch_state_timeseries to_datetime up state_name days log
  = (inl e, (log ++ [state_url state_name days])%list).
Proof.
  rewrite fetch_state_timeseries_run. unfold retrieval_error, after_get.
  destruct (up (state_url state_name days)) as [r|]; [|by intros [= <-]].
  case_bool_decide; [by intros [= <-]|].
  destruct (body r); [done|]. by intros [= <-].
Qed.

End More.

Lemma new_cases_sum_at_least_net_increase_witness :
  cases ohio_last - cases ohio_first ≤ total (new_cases <$> ohio_frame).
Proof.
  apply (new_cases_sum_at_least_net_increase IsoDate.to_datetime ohio
           "Ohio" 365 []).
  - right. vm_compute. reflexivity.
  - apply (bool_decide_unpack _). vm_compute. reflexivity.
  - reflexivity.
  - reflexivity.
Defined.

Lemma new_cases_sum_is_net_increase_witness :
  total (new_cases <$> growing_frame) = cases march_3 - cases march_1.
Proof.
  apply (new_cases_sum_is_net_increase IsoDate.to_datetime growing
           "Ohio" 60 []).
  - right. vm_compute. reflexivity.
  - apply (bool_decide_unpack _). vm_compute. reflexivity.
  - reflexivity.
  - reflexivity.
  - apply (bool_decide_unpack _). vm_compute. reflexivity.
Defined.

Lemma delivery_order_irrelevant_witness :
  (fetch_state_timeseries IsoDate.to_datetime growing "Ohio" 60 []).1
  = (fetch_state_timeseries IsoDate.to_datetime growing_in_order "Ohio" 60
       []).1.
Proof.
  apply (delivery_order_irrelevant IsoDate.to_datetime growing
           growing_in_order "Ohio" 60 [] growing_points growing_dates
           growing_points_in_order growing_dates_in_order).
  - eexists. split_and!; [vm_compute; reflexivity|simpl; lia|reflexivity
                         |vm_compute; reflexivity|reflexivity].
  - eexists. split_and!; [vm_compute; reflexivity|simpl; lia|reflexivity
                         |vm_compute; reflexivity|reflexivity].
  - apply perm_swap.
  - apply (bool_decide_unpack _). vm_compute. reflexivity.
Defined.

Lemma series_retrieval_error_witness :
  fetch_state_timeseries IsoDate.to_datetime unknown_region "Atlantis" 180 []
  = (inl (HTTPError 404), ([] ++ [state_url "Atlantis" 180])%list).
Proof.
  apply (series_retrieval_error IsoDate.to_datetime unknown_region
           "Atlantis" 180 [] (HTTPError 404)).
  vm_compute. reflexivity.
Defined.

End TimeSeriesMore.

(** ** The page script: table, totals, texts and options *)

Module DashboardFacts.
Import Dashboard DashboardProps SnapshotProps.

#[global] Instance by_todayCases_desc_total : Total by_todayCases_desc.
Proof. intros a b. unfold by_todayCases_desc. lia. Qed.

#[global] Instance by_todayCases_desc_trans : Transitive by_todayCases_desc.
Proof. intros a b c. unfold by_todayCases_desc. lia. Qed.

#[global] Instance str_le_total : Total str_le.
Proof. intros a b. apply String.leb_total. Qed.

(** Two deltas of 5 * 10^18 add up beyond the range of [int64]. *)
Example sum_wraps :
  sum [5000000000000000000; 5000000000000000000] = -8446744073709551616.
Proof. vm_compute. reflexivity. Qed.

Lemma total_app (a b : list Z) : total (a ++ b) = total a + total b.
Proof. induction a as [|x a IH]; simpl; [done|]. rewrite IH. lia. Qed.

Lemma total_nonneg (s : list Z) : Forall (λ x, 0 ≤ x) s → 0 ≤ total s.
Proof. induction 1; simpl; lia. Qed.

Lemma total_Permutation (a b : list Z) : a ≡ₚ b → total a = total b.
Proof. induction 1; simpl; lia. Qed.

Lemma total_le_bound (s : list Z) (b : Z) :
  Forall (λ x, 0 ≤ x ≤ b) s → 0 ≤ total s ≤ Z.of_nat (length s) * b.
Proof.
  induction 1 as [|x s Hx _ IH]; [simpl; lia|].
  cbn [total foldr length] in *. fold (total s) in *. lia.
Qed.

(** The sum of an [int64] column is the sum of its numbers as long as
    that stays in the range of [int64]. *)
Lemma sum_total (s : list Z) :
  - 2 ^ 63 ≤ total s < 2 ^ 63 → sum s = total s.
Proof. apply wrap64_exact. Qed.

(** X11. The table of the ten leading states has ten rows, or all rows
    of the snapshot when there are fewer; its rows are rows of the
    snapshot in descending order of new cases, and no row left out has
    more new cases than a row shown. *)
Theorem top10_leads (snap : list Snapshot.Row) :
  length (top10 snap) = (10 `min` length snap)%nat
  ∧ StronglySorted by_todayCases_desc (top10 snap)
  ∧ ∃ rest,
      snap ≡ₚ (top10 snap ++ rest)%list
      ∧ Forall (λ shown,
                  Forall (λ left_out,
                            Snapshot.todayCases left_out
                            ≤ Snapshot.todayCases shown) rest)
               (top10 snap).
Proof.
  unfold top10.
  pose proof (StronglySorted_merge_sort by_todayCases_desc snap) as Hs.
  pose proof (merge_sort_Permutation by_todayCases_desc snap) as Hp.
  rewrite <- (take_drop 10 (merge_sort by_todayCases_desc snap)) in Hs, Hp.
  apply StronglySorted_app in Hs as (Hle & Hs1 & _).
  split_and!.
  - rewrite length_take. f_equal.
    apply Permutation_length, merge_sort_Permutation.
  - exact Hs1.
  - exists (drop 10 (merge_sort by_todayCases_desc snap)).
    split; [done|].
    apply Forall_forall. intros a Ha. apply Forall_forall. intros b Hb.
    exact (Hle a b Ha Hb).
Qed.

Lemma top10_total_le (snap : list Snapshot.Row) :
  Forall (λ r, 0 ≤ Snapshot.todayCases r) snap →
  0 ≤ total (Snapshot.todayCases <$> top10 snap)
    ≤ total (Snapshot.todayCases <$> snap).
Proof.
  intros Hnn. unfold top10.
  pose proof (merge_sort_Permutation by_todayCases_desc snap) as Hp.
  set (sorted := merge_sort by_todayCases_desc snap) in *.
  rewrite <- (total_Permutation _ _
                (fmap_Permutation Snapshot.todayCases _ _ Hp)).
  assert (Hsorted : Forall (λ r, 0 ≤ Snapshot.todayCases r) sorted).
  { apply Forall_forall. intros r Hr.
    rewrite Forall_forall in Hnn. apply Hnn. by rewrite <- Hp. }
  rewrite <- (take_drop 10 sorted) at 3. rewrite fmap_app, total_app.
  assert (0 ≤ total (Snapshot.todayCases <$> take 10 sorted)).
  { apply total_nonneg. rewrite Forall_fmap. by apply Forall_take. }
  assert (0 ≤ total (Snapshot.todayCases <$> drop 10 sorted)).
  { apply total_nonneg. rewrite Forall_fmap. by apply Forall_drop. }
  lia.
Qed.

(** X12. When both retrievals are accepted, names repeat in neither
    table and the counts of both tables are null or from 0 to 2^53, the
    two totals shown for the returned snapshot are the sums of its
    deltas in the integers and are not negative, and the new cases of
    the ten rows of the table add up to at most the total of new
    cases. *)
Theorem totals_nonnegative up log today yest :
  accepted up Snapshot.url_today today →
  accepted up Snapshot.url_yest yest →
  NoDup (StatesApi.state <$> today) → NoDup (StatesApi.state <$> yest) →
  exact_table today → exact_table yest →
  ∃ out,
    (Snapshot.fetch_states_snapshot up log).1 = inr out
    ∧ sum (Snapshot.todayCases <$> out) = total (Snapshot.todayCases <$> out)
    ∧ sum (Snapshot.todayDeaths <$> out)
      = total (Snapshot.todayDeaths <$> out)
    ∧ 0 ≤ sum (Snapshot.todayCases <$> out)
    ∧ 0 ≤ sum (Snapshot.todayDeaths <$> out)
    ∧ sum (Snapshot.todayCases <$> top10 out)
      ≤ sum (Snapshot.todayCases <$> out).
Proof.
  intros Ht Hy Hndt Hndy Het Hey. exists (rows today yest).
  rewrite (SnapshotFacts.fetch_states_snapshot_accepted _ _ _ _ Ht Hy).
  split; [done|].
  pose proof (SnapshotMore.length_rows_le_51 today yest Hndt Hndy) as Hlen.
  pose proof (SnapshotMore.rows_deltas_bounded today yest Het Hey) as Hb.
  set (out := rows today yest) in *.
  assert (Hc : 0 ≤ total (Snapshot.todayCases <$> out)
               ≤ Z.of_nat (length out) * 2 ^ 53).
  { rewrite <- (length_fmap Snapshot.todayCases).
    apply total_le_bound. rewrite Forall_fmap.
    eapply Forall_impl; [exact Hb|]. by intros r [? _]. }
  assert (Hd : 0 ≤ total (Snapshot.todayDeaths <$> out)
               ≤ Z.of_nat (length out) * 2 ^ 53).
  { rewrite <- (length_fmap Snapshot.todayDeaths).
    apply total_le_bound. rewrite Forall_fmap.
    eapply Forall_impl; [exact Hb|]. by intros r [_ ?]. }
  assert (Htop : 0 ≤ total (Snapshot.todayCases <$> top10 out)
                 ≤ total (Snapshot.todayCases <$> out)).
  { apply top10_total_le. eapply Forall_impl; [exact Hb|].
    by intros r [[? _] _]. }
  assert (Hrange : Z.of_nat (length out) * 2 ^ 53 < 2 ^ 63) by lia.
  rewrite !sum_total by lia. split_and!; [done|done|lia..].
Qed.

Lemma totals_nonnegative_witness :
  ∃ out,
    (Snapshot.fetch_states_snapshot SnapshotRuns.revised []).1 = inr out
    ∧ sum (Snapshot.todayCases <$> out) = total (Snapshot.todayCases <$> out)
    ∧ sum (Snapshot.todayDeaths <$> out)
      = total (Snapshot.todayDeaths <$> out)
    ∧ 0 ≤ sum (Snapshot.todayCases <$> out)
    ∧ 0 ≤ sum (Snapshot.todayDeaths <$> out)
    ∧ sum (Snapshot.todayCases <$> top10 out)
      ≤ sum (Snapshot.todayCases <$> out).
Proof.
  apply (totals_nonnegative SnapshotRuns.revised []
           SnapshotRuns.today_rows SnapshotRuns.yest_rows).
  - eexists. split_and!; [vm_compute; reflexivity|simpl; lia|done..].
  - eexists. split_and!; [vm_compute; reflexivity|simpl; lia|done..].
  - apply (bool_decide_unpack _). vm_compute. reflexivity.
  - apply (bool_decide_unpack _). vm_compute. reflexivity.
  - apply (bool_decide_unpack _). vm_compute. reflexivity.
  - apply (bool_decide_unpack _). vm_compute. reflexivity.
Defined.

Lemma filter_commas k (l : list ascii) :
  ","%char ∉ l → filter (λ a, a ≠ ","%char) (commas k l) = l.
Proof.
  revert k. induction l as [|d l IH]; intros k; [done|].
  rewrite not_elem_of_cons. intros [Hd Hl].
  destruct k as [|k]; cbn [commas].
  - rewrite filter_cons, decide_False by (by intros []).
    rewrite filter_cons, decide_True by done. by rewrite IH.
  - rewrite filter_cons, decide_True by done. by rewrite IH.
Qed.

Lemma strip_group_thousands s :
  comma_free s → strip_commas (group_thousands s) = s.
Proof.
  intros Hs. unfold strip_commas, group_thousands.
  rewrite list_ascii_of_string_of_list_ascii, filter_reverse.
  rewrite filter_commas by (by rewrite elem_of_reverse).
  by rewrite reverse_involutive, string_of_list_ascii_of_string.
Qed.

Lemma pretty_N_go_comma_free x s :
  comma_free s → comma_free (pretty_N_go x s).
Proof.
  revert s. induction (N.lt_wf_0 x) as [x _ IH]; intros s Hs.
  destruct (decide (x = 0)%N) as [->|Hx]; [by rewrite pretty_N_go_0|].
  rewrite pretty_N_go_step by lia.
  apply IH; [apply N.div_lt; lia|].
  unfold comma_free in *. cbn [list_ascii_of_string].
  rewrite not_elem_of_cons. split; [|done].
  unfold pretty_N_char. by repeat case_match.
Qed.

Lemma pretty_positive_comma_free (p : positive) : comma_free (pretty p).
Proof.
  unfold pretty, pretty_positive, pretty, pretty_N.
  rewrite decide_False by done.
  apply pretty_N_go_comma_free. unfold comma_free. simpl. apply not_elem_of_nil.
Qed.

Lemma strip_format_thousands n : strip_commas (format_thousands n) = pretty n.
Proof.
  unfold format_thousands. destruct n as [|p|p].
  - reflexivity.
  - rewrite bool_decide_eq_false_2 by lia.
    apply strip_group_thousands, pretty_positive_comma_free.
  - rewrite bool_decide_eq_true_2 by lia.
    change (- Z.neg p) with (Z.pos p).
    change (pretty (Z.neg p)) with ("-" +:+ pretty p).
    change (pretty (Z.pos p)) with (pretty p).
    pose proof (strip_group_thousands _ (pretty_positive_comma_free p)) as Hg.
    unfold strip_commas in *.
    change ("-" +:+ group_thousands (pretty p))
      with (String "-"%char (group_thousands (pretty p))).
    change ("-" +:+ pretty p) with (String "-"%char (pretty p)).
    cbn [list_ascii_of_string].
    rewrite filter_cons, decide_True by done.
    cbn [string_of_list_ascii]. by rewrite Hg.
Qed.

(** X13. The text of a total, [f"{n:,}"], is its decimal text once the
    commas are taken out; so two different totals never show the same
    text. *)
Theorem format_thousands_reads_back :
  (∀ n, strip_commas (format_thousands n) = pretty n)
  ∧ Inj (=) (=) format_thousands.
Proof.
  split; [exact strip_format_thousands|].
  intros a b Heq. apply (inj pretty).
  by rewrite <- !strip_format_thousands, Heq.
Qed.

Lemma sorted_keys_spec (d : gmap string string) :
  Sorted str_le (sorted_keys d)
  ∧ NoDup (sorted_keys d)
  ∧ ∀ k, k ∈ sorted_keys d ↔ is_Some (d !! k).
Proof.
  unfold sorted_keys. split_and!.
  - apply Sorted_merge_sort; apply _.
  - rewrite merge_sort_Permutation. apply NoDup_fst_map_to_list.
  - intros k. rewrite merge_sort_Permutation, list_elem_of_fmap. split.
    + intros ([k' v] & -> & Hin). apply elem_of_map_to_list in Hin. by exists v.
    + intros [v Hv]. exists (k, v). split; [done|].
      by apply elem_of_map_to_list.
Qed.

(** X14. The select box offers the country first and then the names of
    the Region Code Table in ascending order, and nothing else, each of
    them once; the country is not a name of the table, so a choice other
    than the country always has a code. *)
Theorem options_are_country_and_regions :
  (∃ names,
      options = "United States" :: names
      ∧ StronglySorted str_le names
      ∧ NoDup names
      ∧ length names = 51%nat
      ∧ ∀ name, name ∈ names ↔ is_Some (USPS !! name))
  ∧ (∀ choice,
      choice ∈ options ↔ choice = "United States" ∨ is_Some (USPS !! choice))
  ∧ NoDup options
  ∧ USPS !! "United States" = None.
Proof.
  destruct (sorted_keys_spec USPS) as (Hsorted & Hnd & Hin).
  assert (Hus : USPS !! "United States" = None) by (by vm_compute).
  unfold options. split_and!; [| | |done].
  - exists (sorted_keys USPS). split_and!; [done| | |by vm_compute|done].
    + apply (bool_decide_unpack _). vm_compute. reflexivity.
    + done.
  - intros choice. by rewrite elem_of_cons, Hin.
  - apply NoDup_cons. split; [|done].
    rewrite Hin, Hus. by intros [? ?].
Qed.

End DashboardFacts.

(** ** The page script: what a run requests and shows *)

Module DashboardSpec.
Import Dashboard DashboardProps.
Import SnapshotProps RetrievalProps.


Section Runs.
Variable to_datetime : list string → string + list TimeSeries.datetime.



Lemma snapshot_failure_run up log :
  failed up Snapshot.url_today ∨ failed up Snapshot.url_yest →
  ∃ e urls,
    Snapshot.fetch_states_snapshot up log = (inl e, (log ++ urls)%list)
    ∧ (urls = [Snapshot.url_today]
       ∨ urls = [Snapshot.url_today; Snapshot.url_yest]).
Proof.
  unfold failed. SnapshotMore.run_snapshot.
  destruct (up Snapshot.url_today) as [r1|];
    [|intros _; eexists _, _; split; [done|by left]].
  case_bool_decide as Hs1; [intros _; eexists _, _; split; [done|by left]|].
  destruct (body r1) as [j1|];
    [|intros _; eexists _, _; split; [done|by left]].
  rewrite <- (assoc_L (++)). cbn [app].
  destruct (up Snapshot.url_yest) as [r2|];
    [|intros _; eexists _, _; split; [done|by right]].
  case_bool_decide as Hs2; [intros _; eexists _, _; split; [done|by right]|].
  intros [?|?]; done.
Qed.

(** X16. When the snapshot is not cached and one of its two retrievals
    fails, the run shows the one error of the snapshot and ends there:
    it requests no series, leaves the caches of the series as they were,
    and has requested the snapshot URLs only. *)
Theorem snapshot_failure_ends_run up now days choice s :
  CacheProps.stale Cache.ttl now () (snapshot_cache s) →
  failed up Snapshot.url_today ∨ failed up Snapshot.url_yest →
  ∃ e urls,
    script to_datetime up now days choice s
    = ([error "Could not load state snapshot: " e],
       {| snapshot_cache := delete () (snapshot_cache s);
          national_cache := national_cache s;
          state_cache := state_cache s;
          requests := (requests s ++ urls)%list |})
    ∧ (urls = [Snapshot.url_today]
       ∨ urls = [Snapshot.url_today; Snapshot.url_yest]).
Proof.
  intros Hstale Hfail.
  destruct (snapshot_failure_run up (requests s) Hfail)
    as (e & urls & Hrun & Hurls).
  exists e, urls. split; [|done].
  unfold script, Cache.fetch_states_snapshot.
  rewrite CacheSpec.cache_data_stale by done. unfold Cache.miss.
  by rewrite Hrun.
Qed.




End Runs.


Lemma snapshot_failure_ends_run_witness :
  ∃ e urls,
    script IsoDate.to_datetime all_down 0 365 "Ohio" cold
    = ([error "Could not load state snapshot: " e],
       {| snapshot_cache := delete () (snapshot_cache cold);
          national_cache := national_cache cold;
          state_cache := state_cache cold;
          requests := (requests cold ++ urls)%list |})
    ∧ (urls = [Snapshot.url_today]
       ∨ urls = [Snapshot.url_today; Snapshot.url_yest]).
Proof.
  apply (snapshot_failure_ends_run IsoDate.to_datetime all_down 0 365
           "Ohio" cold).
  - vm_compute. exact I.
  - left. vm_compute. exact I.
Defined.



(** A run that loads everything: the three totals, the map, the line of
    the chosen state and the table. *)
Example loaded_page :
  (script IsoDate.to_datetime both 0 365 "Ohio" cold).1
  = [ metric "States reporting" "3";
      metric "New cases (today, sum of states)" "0";
      metric "New deaths (today, sum of states)" "2";
      subheader "🧊 Heat Map — Today’s New Cases by State";
      choropleth SnapshotRuns.revised_frame "New Cases by State (today)";
      subheader "📈 Trend Line — New Cases Over Time";
      line TimeSeriesRuns.ohio_frame "New Cases — Ohio (last 365 days)";
      subheader "🏅 Top 10 States — Today’s New Cases";
      dataframe (table (top10 SnapshotRuns.revised_frame));
      caption "Data: https://disease.sh (public, free). Note: numbers depend on state reporting cadence." ].
Proof. vm_compute. reflexivity. Qed.

End DashboardSpec.
